(** * Moon Survival: the ranking score and the team aggregation

    A shallow embedding of the scoring core of [app.py] (the web
    handler) and of [moon-survival.py] (the console experiment), and the
    properties of the scoring and aggregation operations.

    Python integers are [Z]; names are byte strings; dictionaries keyed by
    a name are [gmap string _]; an exception is a value of [exn] carried by
    [result]. The quotient [sum(scores) / len(scores)] of two Python
    integers is a double in the program; it is embedded as the exact
    rational quotient, of which the double is the nearest representable
    value. Rounding to nearest is monotone, so the order of the doubles
    never contradicts the order of the rationals.

    The console program is run on a list of input lines and yields the
    list of what it printed and asked; [int], [str.strip] and [str.lower]
    of the Python library are taken as given functions. *)

From Stdlib Require Import ZArith QArith Lia Sorting.Sorted Ascii.
From stdpp Require Import gmap strings list fin_maps sorting pretty.

Local Open Scope Z_scope.

(** ** Python values shared by both files *)

(** [@dataclass class Item], declared identically in both files. *)
Record Item := mkItem {
  name : string;
  official_rank : Z;
  description : string
}.

Global Instance Item_eq_dec : EqDecision Item.
Proof. solve_decision. Defined.

(** [enumerate(l, start)] *)
Fixpoint enumerate_from {A} (start : Z) (l : list A) : list (Z * A) :=
  match l with
  | [] => []
  | x :: l' => (start, x) :: enumerate_from (start + 1) l'
  end.

Definition enumerate {A} (l : list A) : list (Z * A) := enumerate_from 0 l.

(** [len(l)] *)
Definition len {A} (l : list A) : Z := Z.of_nat (length l).

(** [sum(l)] on integers *)
Definition sum (l : list Z) : Z := foldl Z.add 0 l.

(** [next(gen, default)]: the first value the generator yields. *)
Definition next {A} (gen : list A) (default : A) : A :=
  match gen with
  | x :: _ => x
  | [] => default
  end.

(** Exceptions the modelled code can raise. *)
Inductive exn :=
  | ZeroDivisionError
  | KeyError (k : string).

Inductive result (A : Type) :=
  | Ok (a : A)
  | Raise (e : exn).
Arguments Ok {A} a.
Arguments Raise {A} e.

Global Instance result_bind : MBind result := λ A B k r,
  match r with
  | Ok a => k a
  | Raise e => Raise e
  end.

(** A [for] loop whose body can raise, threading the loop state. *)
Fixpoint for_each {A S} (l : list A) (body : S → A → result S) (s : S)
  : result S :=
  match l with
  | [] => Ok s
  | x :: l' => s' ← body s x; for_each l' body s'
  end.

(** [[f(x) for x in l]] where [f] can raise. *)
Fixpoint comprehension {A B} (f : A → result B) (l : list A)
  : result (list B) :=
  match l with
  | [] => Ok []
  | x :: l' => y ← f x; ys ← comprehension f l'; Ok (y :: ys)
  end.

(** [a / b] on two integers: true division. *)
Definition truediv (a b : Z) : result Q :=
  if decide (b = 0) then Raise ZeroDivisionError
  else Ok (inject_Z a / inject_Z b)%Q.

(** [d[k]] *)
Definition getitem {V} (d : gmap string V) (k : string) : result V :=
  match d !! k with
  | Some v => Ok v
  | None => Raise (KeyError k)
  end.

(** ** [sorted(l, key=...)]

    Python's [sorted] computes the key of every element once, then sorts
    the decorated list with a stable algorithm. A stable sort has one
    possible output, so it is embedded as the stable insertion sort. *)
Section StableSort.
Context {K A : Type} (leb : K → K → bool).

Fixpoint insert_by_key (x : K * A) (l : list (K * A)) : list (K * A) :=
  match l with
  | [] => [x]
  | y :: l' =>
      if leb x.1 y.1 then x :: y :: l' else y :: insert_by_key x l'
  end.

Fixpoint stable_sort (l : list (K * A)) : list (K * A) :=
  match l with
  | [] => []
  | x :: l' => insert_by_key x (stable_sort l')
  end.
End StableSort.

Definition sorted {A} (l : list A) (key : A → result Q) : result (list A) :=
  keys ← comprehension key l;
  Ok ((stable_sort Qle_bool (zip keys l)).*2).

(** ** app.py *)
Module App.

Definition OFFICIAL_ITEMS : list Item :=
  [ mkItem "氧氣瓶" 1 "呼吸";
    mkItem "水" 2 "補充液體";
    mkItem "星圖" 3 "導航";
    mkItem "食物濃縮物" 4 "營養";
    mkItem "太陽能電池板" 5 "電力";
    mkItem "衣服補丁" 6 "防止失壓";
    mkItem "醫療箱" 7 "急救";
    mkItem "繩索" 8 "安全/移動";
    mkItem "降落傘" 9 "防止隕石碰撞";
    mkItem "救生筏" 10 "隱蔽所";
    mkItem "信號鏡" 11 "通信";
    mkItem "手電筒" 12 "照明";
    mkItem "火柴" 13 "點火";
    mkItem "月球地圖" 14 "導航輔助";
    mkItem "磁羅盤" 15 "導航（不太有效）" ].

(** [{item.name: item.official_rank - 1 for item in OFFICIAL_ITEMS}] *)
Definition off_map : gmap string Z :=
  foldl (λ m item, <[name item := official_rank item - 1]> m) ∅
        OFFICIAL_ITEMS.

(** The body of the loop of [calculate_score]: what position [i]
    holding [nm] adds to the running total. *)
Definition contribution (i : Z) (nm : string) : Z :=
  match off_map !! nm with
  | Some r => Z.abs (r - i)
  | None => len OFFICIAL_ITEMS
  end.

Definition calculate_score (submitted_names : list string) : Z :=
  foldl (λ score '(i, nm), score + contribution i nm) 0
        (enumerate submitted_names).

(** One entry of [per_item] in the body of the response. *)
Record per_item_entry := mkPerItem {
  pi_name : string;
  pi_submitted_rank : Z;
  pi_official_rank : option Z;
  pi_diff : option Z
}.

Record submitted_entry := mkSubmitted {
  sub_name : string;
  sub_pos : Z
}.

Record evaluation := mkEvaluation {
  ev_score : Z;
  ev_submitted : list submitted_entry;
  ev_official : list Item;
  ev_per_item : list per_item_entry
}.

(** What the route answers: a body with status 200, or an error
    message with status 400. *)
Inductive response :=
  | Ok200 (body : evaluation)
  | Error400 (msg : string).

(** [{it.name: it.official_rank for it in OFFICIAL_ITEMS}] *)
Definition off_pos_map : gmap string Z :=
  foldl (λ m it, <[name it := official_rank it]> m) ∅ OFFICIAL_ITEMS.

Definition per_item_of (i : Z) (nm : string) : per_item_entry :=
  {| pi_name := nm;
     pi_submitted_rank := i + 1;
     pi_official_rank := off_pos_map !! nm;
     pi_diff := match off_pos_map !! nm with
                | None => None
                | Some r => Some (Z.abs (r - (i + 1)))
                end |}.

Definition evaluate (order : list string) : response :=
  if decide (len order ≠ len OFFICIAL_ITEMS) then Error400 "invalid order"
  else
    let score := calculate_score order in
    let official_list := OFFICIAL_ITEMS in
    let submitted_list :=
      (λ '(i, nm), mkSubmitted nm (i + 1)) <$> enumerate order in
    let per_item := (λ '(i, nm), per_item_of i nm) <$> enumerate order in
    Ok200 {| ev_score := score;
             ev_submitted := submitted_list;
             ev_official := official_list;
             ev_per_item := per_item |}.

End App.

(** ** moon-survival.py *)
Module MoonSurvival.

(** The class attribute [MoonSurvivalExperiment.OFFICIAL_ITEMS]. *)
Definition OFFICIAL_ITEMS : list Item :=
  [ mkItem "氧氣瓶" 1 "呼吸";
    mkItem "水" 2 "補充液體";
    mkItem "星圖" 3 "導航";
    mkItem "食物濃縮物" 4 "營養";
    mkItem "太陽能電池板" 5 "電力";
    mkItem "衣服補丁" 6 "防止失壓";
    mkItem "醫療箱" 7 "急救";
    mkItem "繩索" 8 "安全/移動";
    mkItem "降落傘" 9 "防止隕石碰撞";
    mkItem "救生筏" 10 "隱蔽所";
    mkItem "信號鏡" 11 "通信";
    mkItem "手電筒" 12 "照明";
    mkItem "火柴" 13 "點火";
    mkItem "月球地圖" 14 "導航輔助";
    mkItem "磁羅盤" 15 "導航（不太有效）" ].

(** The fields of an instance of [MoonSurvivalExperiment]. The order in
    which [individual_rankings] was filled only shows in what is
    printed per person; the scores are sums over its values. *)
Record MoonSurvivalExperiment := mkExperiment {
  items : list Item;
  team_ranking : list Item;
  individual_rankings : gmap string (list Item)
}.

(** [__init__] *)
Definition init : MoonSurvivalExperiment :=
  {| items := OFFICIAL_ITEMS;
     team_ranking := [];
     individual_rankings := ∅ |}.

(** [d.values()] *)
Definition values {V} (d : gmap string V) : list V := (map_to_list d).*2.

(** [next((i + 1 for i, x in enumerate(person_ranking)
           if x.name == item.name), 0)] *)
Definition rank_in (person_ranking : list Item) (item : Item) : Z :=
  next ((λ p, p.1 + 1) <$>
          filter (λ p : Z * Item, name p.2 = name item)
                 (enumerate person_ranking))
       0.

(** The first loop of [calculate_team_ranking]: the dictionary
    [item_scores] it builds. *)
Definition item_scores (self : MoonSurvivalExperiment)
  : result (gmap string Q) :=
  for_each (items self)
    (λ item_scores item,
       let scores :=
         (λ person_ranking, rank_in person_ranking item) <$>
           values (individual_rankings self) in
       mean ← truediv (sum scores) (len scores);
       Ok (<[name item := mean]> item_scores))
    ∅.

(** Returns the instance after the call and the lines printed. *)
Definition calculate_team_ranking (self : MoonSurvivalExperiment)
  : result (MoonSurvivalExperiment * list string) :=
  if decide (individual_rankings self = ∅)
  then Ok (self, ["❌ 沒有個人排名資料"])
  else
    item_scores ← item_scores self;
    ranking ← sorted (items self)
                     (λ item, getitem item_scores (name item));
    Ok ({| items := items self;
           team_ranking := ranking;
           individual_rankings := individual_rankings self |}, []).

Definition calculate_accuracy (ranking : list Item) : Z :=
  foldl (λ score '(i, item),
           let official_rank := official_rank item - 1 in
           let team_rank := i in
           score + Z.abs (official_rank - team_rank))
        0 (enumerate ranking).

(** [sum(range(len(self.items)))], which [display_results] prints as
    the worst possible score. *)
Definition worst_possible_score (self : MoonSurvivalExperiment) : Z :=
  sum (seqZ 0 (len (items self))).

End MoonSurvival.

(** ** What the specification calls things *)

(** The reference order of the names. *)
Definition reference_names : list string := name <$> App.OFFICIAL_ITEMS.

(** The position of an item in a submission, in the words of the
    specification: one plus the index of the first entry with that name,
    and 0 when no entry has it. *)
Definition position_of (nm : string) (submission : list Item) : Z :=
  match list_find (λ x, name x = nm) submission with
  | Some (i, _) => 1 + Z.of_nat i
  | None => 0
  end.

(** The arithmetic mean of a list of integers. *)
Definition mean_of (l : list Z) : Q :=
  (inject_Z (sum l) / inject_Z (Z.of_nat (length l)))%Q.

(** [a] stands before [b] in [l]. *)
Definition before {A} (l : list A) (a b : A) : Prop :=
  ∃ i j : nat, l !! i = Some a ∧ l !! j = Some b ∧ (i < j)%nat.

(** ** Notions used in the statements and the proofs *)

(** [R0] is the order of the input of a sort by [leb] on the keys; in the
    output an element stands before another when its key is not greater
    and, the keys being equal, it stood before it in the input. *)
Definition key_then_input {K A} (leb : K → K → bool) (R0 : A → A → Prop)
    (x y : K * A) : Prop :=
  leb x.1 y.1 = true ∧ (leb y.1 x.1 = true → R0 x.2 y.2).

(** How far the reference position of a name is from the middle
    position, 7. *)
Definition deviation (nm : string) : Z :=
  match App.off_map !! nm with
  | Some r => Z.abs (r - 7)
  | None => 15
  end.

(** The sum of the distances to the middle position of the [n] positions
    from [k] on. *)
Fixpoint index_spread (k : Z) (n : nat) : Z :=
  match n with
  | O => 0
  | S n' => Z.abs (k - 7) + index_spread (k + 1) n'
  end.

(** The mean position of a name over the individual rankings of an
    experiment. *)
Definition mean_position (self : MoonSurvival.MoonSurvivalExperiment)
    (nm : string) : Q :=
  mean_of (position_of nm <$>
             MoonSurvival.values (MoonSurvival.individual_rankings self)).

(** The items of an experiment, each with its mean position. *)
Definition by_mean_position (self : MoonSurvival.MoonSurvivalExperiment)
  : list (Q * Item) :=
  (λ it, (mean_position self (name it), it)) <$> MoonSurvival.items self.

(** ** Concrete experiments *)

(** Two people: one ranks in the reference order, the other in the
    reverse order, so that every item has mean position 8. *)
Definition two_opposite_rankings : MoonSurvival.MoonSurvivalExperiment :=
  {| MoonSurvival.items := MoonSurvival.OFFICIAL_ITEMS;
     MoonSurvival.team_ranking := [];
     MoonSurvival.individual_rankings :=
       <["ann" := MoonSurvival.OFFICIAL_ITEMS]>
         {["bob" := reverse MoonSurvival.OFFICIAL_ITEMS]} |}.

(** One person, ranking in the reverse of the reference order. *)
Definition one_reversed_ranking : MoonSurvival.MoonSurvivalExperiment :=
  {| MoonSurvival.items := MoonSurvival.OFFICIAL_ITEMS;
     MoonSurvival.team_ranking := [];
     MoonSurvival.individual_rankings :=
       {["ann" := reverse MoonSurvival.OFFICIAL_ITEMS]} |}.

(** One person who left the first reference item out. *)
Definition one_short_ranking : MoonSurvival.MoonSurvivalExperiment :=
  {| MoonSurvival.items := MoonSurvival.OFFICIAL_ITEMS;
     MoonSurvival.team_ranking := [];
     MoonSurvival.individual_rankings :=
       {["ann" := reverse (drop 1 MoonSurvival.OFFICIAL_ITEMS)]} |}.

(** ** Notions used for the rest of the two files *)

(** What an entry of [per_item] stands for in the score: its difference,
    or the penalty when it has none. *)
Definition diff_or_penalty (e : App.per_item_entry) : Z :=
  match App.pi_diff e with
  | Some d => d
  | None => len App.OFFICIAL_ITEMS
  end.

(** The 0-based reference rank of a name, 0 for a name without one. *)
Definition rank0 (nm : string) : Z :=
  match App.off_map !! nm with
  | Some r => r
  | None => 0
  end.

(** ** The console of [moon-survival.py]

    What the program writes and reads is a list of events and a list of
    input lines. [print(x)] is the event [Printed x]; [input(p)] is the
    event [Asked p] and takes the next line, or raises [EOFError] when
    there is none. *)

Inductive event :=
  | Printed (text : string)
  | Asked (prompt : string).

Inductive console_exn :=
  | EOFError
  | ValueError
  | IndexError
  | Raised (e : exn).

Inductive outcome (A : Type) :=
  | Returned (a : A) (stdin : list string)
  | Failed (e : console_exn).
Arguments Returned {A} a stdin.
Arguments Failed {A} e.

Definition io (A : Type) : Type := list string → list event * outcome A.

Global Instance io_ret : MRet io := λ A a stdin, ([], Returned a stdin).

Global Instance io_bind : MBind io := λ A B k m stdin,
  match m stdin with
  | (evs, Returned a stdin') =>
      match k a stdin' with (evs', r) => (evs ++ evs', r) end
  | (evs, Failed e) => (evs, Failed e)
  end.

Definition print (text : string) : io unit :=
  λ stdin, ([Printed text], Returned () stdin).

Definition print_all (texts : list string) : io unit :=
  λ stdin, (Printed <$> texts, Returned () stdin).

Definition input (prompt : string) : io string := λ stdin,
  match stdin with
  | [] => ([Asked prompt], Failed EOFError)
  | line :: rest => ([Asked prompt], Returned line rest)
  end.

Definition raise {A} (e : console_exn) : io A := λ _, ([], Failed e).

(** The line feed. *)
Definition nl : string := String (Ascii.ascii_of_nat 10) EmptyString.

(** [s * n] on a string *)
Fixpoint times (s : string) (n : nat) : string :=
  match n with
  | O => EmptyString
  | S n' => s +:+ times s n'
  end.

(** [len(s)] on a string: the number of its characters, the bytes of
    the UTF-8 text that do not continue a character. *)
Fixpoint codepoints (s : string) : nat :=
  match s with
  | EmptyString => 0
  | String c s' =>
      if decide (128 ≤ Ascii.nat_of_ascii c < 192)%nat then codepoints s'
      else S (codepoints s')
  end.

(** [f"{s:ws}"]: left-aligned in at least [w] characters. *)
Definition fmt_s (w : nat) (s : string) : string :=
  s +:+ times " " (w - codepoints s).

(** [f"{n:wd}"]: the decimal numeral, right-aligned in at least [w]
    characters. *)
Definition fmt_d (w : nat) (n : Z) : string :=
  times " " (w - String.length (pretty n)) +:+ pretty n.

(** [s.split(sep)] for a separator of one byte. *)
Fixpoint split_on (sep : Ascii.ascii) (s : string) : list string :=
  match s with
  | EmptyString => [EmptyString]
  | String c s' =>
      if decide (c = sep) then EmptyString :: split_on sep s'
      else match split_on sep s' with
           | w :: ws => String c w :: ws
           | [] => [String c EmptyString]
           end
  end.

(** [l[i]]: [None] is [IndexError]. *)
Definition list_getitem {A} (l : list A) (i : Z) : option A :=
  if decide (0 ≤ i) then l !! Z.to_nat i
  else if decide (- len l ≤ i) then l !! Z.to_nat (len l + i)
  else None.

(** [sorted(l)] on integers. *)
Definition sorted_ints (l : list Z) : list Z :=
  (stable_sort Z.leb ((λ i, (i, i)) <$> l)).*2.

(** An experiment at the console. [individual_rankings] is a Python
    dictionary: beside the map, the order in which its keys were first
    set, which is the order [items()] goes through them. *)
Record Session := mkSession {
  experiment : MoonSurvival.MoonSurvivalExperiment;
  key_order : list string
}.

(** [MoonSurvivalExperiment()] *)
Definition new_session : Session :=
  {| experiment := MoonSurvival.init; key_order := [] |}.

(** [self.individual_rankings[person_name] = ranking] *)
Definition set_ranking (self : Session) (person_name : string)
    (ranking : list Item) : Session :=
  {| experiment :=
       {| MoonSurvival.items := MoonSurvival.items (experiment self);
          MoonSurvival.team_ranking :=
            MoonSurvival.team_ranking (experiment self);
          MoonSurvival.individual_rankings :=
            <[person_name := ranking]>
              (MoonSurvival.individual_rankings (experiment self)) |};
     key_order :=
       if decide (person_name ∈ key_order self) then key_order self
       else key_order self ++ [person_name] |}.

(** [self.individual_rankings.items()] *)
Definition rankings_items (self : Session) : list (string * list Item) :=
  omap (λ person,
          (λ ranking, (person, ranking)) <$>
            MoonSurvival.individual_rankings (experiment self) !! person)
       (key_order self).

(** [self.calculate_team_ranking()] at the console. *)
Definition calculate_team_ranking_io (self : Session) : io Session :=
  match MoonSurvival.calculate_team_ranking (experiment self) with
  | Ok (e, out) =>
      print_all out;;
      mret {| experiment := e; key_order := key_order self |}
  | Raise e => raise (Raised e)
  end.

Definition display_items (self : Session) : list string :=
  [ times "=" 60;
    "月球倖存實驗 - 物品列表";
    times "=" 60;
    nl +:+ "你被困在月球上，距離基地 200 英里。";
    "你的太空船損壞了。";
    "請根據倖存重要性排序以下 15 項物品（最重要到最不重要）:" +:+ nl ]
  ++ ((λ '(i, item),
         fmt_d 2 i +:+ ". " +:+ fmt_s 20 (name item) +:+ " - "
         +:+ description item) <$>
        enumerate_from 1 (MoonSurvival.items (experiment self)))
  ++ [ "" ].

Definition display_results (self : Session) : list string :=
  [ nl +:+ times "=" 80;
    "結果比較";
    times "=" 80;
    nl +:+ "【團隊排名（平均）】";
    times "-" 80 ]
  ++ ((λ '(rank, item), fmt_d 2 rank +:+ ". " +:+ fmt_s 20 (name item)) <$>
        enumerate_from 1 (MoonSurvival.team_ranking (experiment self)))
  ++ [ nl +:+ "【NASA 官方排名】";
       times "-" 80 ]
  ++ ((λ item,
         fmt_d 2 (official_rank item) +:+ ". " +:+ fmt_s 20 (name item)) <$>
        MoonSurvival.OFFICIAL_ITEMS)
  ++ [ nl +:+ times "=" 80;
       "準確度分析";
       times "=" 80 ]
  ++ (let team_score :=
        MoonSurvival.calculate_accuracy
          (MoonSurvival.team_ranking (experiment self)) in
      [ nl +:+ "團隊總分: " +:+ pretty team_score;
        "最佳可能分數: 0";
        "最差可能分數: "
        +:+ pretty (MoonSurvival.worst_possible_score (experiment self)) ])
  ++ [ nl +:+ "【個人準確度】";
       times "-" 80 ]
  ++ ((λ '(person_name, ranking),
         let score := MoonSurvival.calculate_accuracy ranking in
         fmt_s 20 person_name +:+ ": " +:+ fmt_d 4 score +:+ " 分") <$>
        rankings_items self).

(** The mark of a row of [run_single_mode]. *)
Definition symbol_of (rank : Z) (item : Item) : string :=
  let official := official_rank item in
  let diff := rank - official in
  if decide (diff = 0) then "✓" else "✗".

(** What [run_single_mode] prints once the ranking of the player is
    known. *)
Definition single_mode_report (player_ranking : list Item) : list string :=
  let score := MoonSurvival.calculate_accuracy player_ranking in
  [ nl +:+ "【你的排名】" ]
  ++ ((λ '(rank, item),
         let official := official_rank item in
         symbol_of rank item +:+ " " +:+ fmt_d 2 rank +:+ ". "
         +:+ fmt_s 20 (name item) +:+ " (官方排名: " +:+ fmt_d 2 official
         +:+ ")") <$>
        enumerate_from 1 player_ranking)
  ++ [ nl +:+ "準確度分數: " +:+ pretty score;
       "分數越低越好 (最佳: 0)" ].

Section Console.
(** [int(s)] and [s.strip()], of the Python library; [None] is the
    [ValueError] of [int]. *)
Context (int_of : string → option Z) (strip : string → string).

(** [[int(x.strip()) - 1 for x in ranking_input.split(",")]] *)
Definition parse_indices (ranking_input : string) : option (list Z) :=
  mapM (λ x, (λ n, n - 1) <$> int_of (strip x))
       (split_on ","%char ranking_input).

(** The [while True] loop of [get_individual_ranking]: one turn for
    each line read. *)
Fixpoint ranking_loop (self : Session) (person_name : string)
    (stdin : list string) : list event * outcome Session :=
  let items := MoonSurvival.items (experiment self) in
  let asked := Asked (person_name +:+ " 的排序: ") in
  match stdin with
  | [] => ([asked], Failed EOFError)
  | ranking_input :: stdin' =>
      let again (text : string) :=
        match ranking_loop self person_name stdin' with
        | (evs, r) => (asked :: Printed text :: evs, r)
        end in
      match parse_indices ranking_input with
      | None => again "❌ 輸入無效，請重試"
      | Some indices =>
          if decide (len indices ≠ len items)
          then again ("❌ 錯誤: 請輸入 " +:+ pretty (len items) +:+ " 個物品")
          else if decide (sorted_ints indices ≠ seqZ 0 (len items))
          then again "❌ 錯誤: 每個物品必須恰好出現一次"
          else
            match mapM (list_getitem items) indices with
            | None => ([asked], Failed IndexError)
            | Some ranking =>
                ([asked; Printed ("✅ 排序已保存" +:+ nl)],
                 Returned (set_ranking self person_name ranking) stdin')
            end
      end
  end.

Definition get_individual_ranking (self : Session) (person_name : string)
  : io Session :=
  print (nl +:+ person_name
         +:+ "，請為以下物品排序（輸入物品編號，用逗號分隔）:");;
  print "例如: 1,3,5,2,4,6,7,8,9,10,11,12,13,14,15";;
  ranking_loop self person_name.

Definition run_single_mode (self : Session) : io Session :=
  print_all (display_items self);;
  self ← get_individual_ranking self "玩家";
  self ← calculate_team_ranking_io self;
  print (nl +:+ times "=" 80);;
  print "結果";;
  print (times "=" 80);;
  match MoonSurvival.individual_rankings (experiment self) !! "玩家" with
  | None => raise (Raised (KeyError "玩家"))
  | Some player_ranking =>
      print_all (single_mode_report player_ranking);;
      mret self
  end.

(** The loop [for i in range(num_people)] of [run_team_mode], from
    [i] on, with [n] turns left. *)
Fixpoint ask_people (self : Session) (i : Z) (n : nat) : io Session :=
  match n with
  | O => mret self
  | S n' =>
      person_name ← input ("第 " +:+ pretty (i + 1) +:+ " 個人的名字: ");
      self ← get_individual_ranking self person_name;
      ask_people self (i + 1) n'
  end.

Definition run_team_mode (self : Session) : io Session :=
  print_all (display_items self);;
  answer ← input "有多少人參與？ ";
  match int_of answer with
  | None => raise ValueError
  | Some num_people =>
      self ← ask_people self 0 (Z.to_nat num_people);
      self ← calculate_team_ranking_io self;
      print_all (display_results self);;
      mret self
  end.

(** [main], returning the experiment as the chosen mode left it. *)
Definition main : io (option Session) :=
  print ("🌙 月球倖存實驗 🌙" +:+ nl);;
  print "選擇遊戲模式:";;
  print "1. 單人模式";;
  print ("2. 團隊模式" +:+ nl);;
  answer ← input "請選擇 (1 或 2): ";
  let choice := strip answer in
  let experiment := new_session in
  if decide (choice = "1")
  then experiment ← run_single_mode experiment; mret (Some experiment)
  else if decide (choice = "2")
  then experiment ← run_team_mode experiment; mret (Some experiment)
  else print "❌ 無效選擇";; mret None.

(** A line [get_individual_ranking] takes for an answer: numerals that,
    lowered by one, are the indices of the items, each once. *)
Definition acceptable (items : list Item) (ranking_input : string) : Prop :=
  ∃ indices, parse_indices ranking_input = Some indices
             ∧ indices ≡ₚ seqZ 0 (len items).

End Console.

(** What holds of an experiment at the console from [new_session] on:
    the items are the reference table, every ranking stored is a
    permutation of it, and the keys of the dictionary are listed once
    each in [key_order]. *)
Definition well_formed (self : Session) : Prop :=
  MoonSurvival.items (experiment self) = MoonSurvival.OFFICIAL_ITEMS
  ∧ (∀ person ranking,
       MoonSurvival.individual_rankings (experiment self) !! person
       = Some ranking →
       ranking ≡ₚ MoonSurvival.OFFICIAL_ITEMS)
  ∧ NoDup (key_order self)
  ∧ (∀ person,
       person ∈ key_order self ↔
       is_Some (MoonSurvival.individual_rankings (experiment self)
                  !! person)).

(** A reading of plain decimal numerals, on which it agrees with
    [int]; used to run the console on concrete input. *)
Definition digit_of (c : Ascii.ascii) : option Z :=
  let n := Z.of_nat (Ascii.nat_of_ascii c) in
  if decide (48 ≤ n ≤ 57) then Some (n - 48) else None.

Fixpoint decimal_from (acc : Z) (s : string) : option Z :=
  match s with
  | EmptyString => Some acc
  | String c s' => d ← digit_of c; decimal_from (10 * acc + d) s'
  end.

Definition decimal (s : string) : option Z :=
  match s with
  | EmptyString => None
  | _ => decimal_from 0 s
  end.

(** Two people who gave the same ranking, the reverse of the reference
    order. *)
Definition two_same_rankings : MoonSurvival.MoonSurvivalExperiment :=
  {| MoonSurvival.items := MoonSurvival.OFFICIAL_ITEMS;
     MoonSurvival.team_ranking := [];
     MoonSurvival.individual_rankings :=
       <["ann" := reverse MoonSurvival.OFFICIAL_ITEMS]>
         {["bob" := reverse MoonSurvival.OFFICIAL_ITEMS]} |}.

(** ** The local replies of [app.py] *)

(** [sub in s] on strings *)
Fixpoint contains (sub s : string) : bool :=
  if String.prefix sub s then true
  else match s with
       | EmptyString => false
       | String _ s' => contains sub s'
       end.

Definition oxygen_reply : string :=
  "氧氣是最關鍵的資源；確保氧氣瓶放在前三名。".

Definition water_reply : string :=
  "水對倖存很重要，通常排在前二至前三名。".

Definition rank_reply : string :=
  "你可以把物品拖放後按「評分」，系統會顯示與 NASA 官方排名的差距與分數。".

Definition tips : list string :=
  [ "試著把維持生命的物品（氧氣、水、食物）放在最前面。";
    "導航工具對長距離返回基地有幫助，但在短期生存時可能不如氧氣或水重要。";
    "如果你想要更詳細的解釋，輸入像「為什麼氧氣重要？」之類的問題。" ].

(** [local_chat_response], given [message.lower] of the Python library
    as [lower] and the value of [int(time.time())] as [now]; [None] is
    [IndexError]. *)
Definition local_chat_response (lower : string → string) (now : Z)
    (message : string) : option string :=
  let message_lower := lower message in
  if contains "oxygen" message_lower || contains "氧氣" message_lower
  then Some oxygen_reply
  else if contains "water" message_lower || contains "水" message_lower
  then Some water_reply
  else if contains "rank" message_lower || contains "排名" message_lower
  then Some rank_reply
  else list_getitem tips (now `mod` len tips).

(** Two people: one ranks in the reference order, the other swaps the
    first two items, so that these two items tie at mean position 3/2
    and every other item keeps its own position as mean. *)
Definition two_close_rankings : MoonSurvival.MoonSurvivalExperiment :=
  {| MoonSurvival.items := MoonSurvival.OFFICIAL_ITEMS;
     MoonSurvival.team_ranking := [];
     MoonSurvival.individual_rankings :=
       <["ann" := MoonSurvival.OFFICIAL_ITEMS]>
         {["bob" := mkItem "水" 2 "補充液體" :: mkItem "氧氣瓶" 1 "呼吸"
                    :: drop 2 MoonSurvival.OFFICIAL_ITEMS]} |}.

(** The experiment [two_opposite_rankings] with a team ranking already
    stored. *)
Definition two_opposite_rankings_ranked
  : MoonSurvival.MoonSurvivalExperiment :=
  {| MoonSurvival.items := MoonSurvival.OFFICIAL_ITEMS;
     MoonSurvival.team_ranking := reverse MoonSurvival.OFFICIAL_ITEMS;
     MoonSurvival.individual_rankings :=
       <["ann" := MoonSurvival.OFFICIAL_ITEMS]>
         {["bob" := reverse MoonSurvival.OFFICIAL_ITEMS]} |}.

(** ** Concrete scenarios *)

Example score_reference : App.calculate_score reference_names = 0.
Proof. vm_compute. reflexivity. Qed.

Example score_swap :
  App.calculate_score ("水" :: "氧氣瓶" :: drop 2 reference_names) = 2.
Proof. vm_compute. reflexivity. Qed.

Example score_reversed : App.calculate_score (reverse reference_names) = 112.
Proof. vm_compute. reflexivity. Qed.

Example worst_printed :
  MoonSurvival.worst_possible_score MoonSurvival.init = 105.
Proof. vm_compute. reflexivity. Qed.

Example all_ties_keep_reference_order :
  MoonSurvival.calculate_team_ranking two_opposite_rankings
  = Ok ({| MoonSurvival.items := MoonSurvival.OFFICIAL_ITEMS;
           MoonSurvival.team_ranking := MoonSurvival.OFFICIAL_ITEMS;
           MoonSurvival.individual_rankings :=
             MoonSurvival.individual_rankings two_opposite_rankings |}, []).
Proof. vm_compute. reflexivity. Qed.

Example omitted_item_ranked_first :
  ∃ self' rest,
    MoonSurvival.calculate_team_ranking one_short_ranking = Ok (self', [])
    ∧ MoonSurvival.team_ranking self' = mkItem "氧氣瓶" 1 "呼吸" :: rest.
Proof. eexists _, _. split; vm_compute; reflexivity. Qed.

(** ** Sums and loops *)

Lemma foldl_add_init (l : list Z) (a : Z) : foldl Z.add a l = a + sum l.
Proof.
  unfold sum. revert a. induction l as [|x l IH]; intros a; simpl; [lia|].
  rewrite (IH (a + x)), (IH (0 + x)). lia.
Qed.

Lemma sum_nil : sum [] = 0.
Proof. reflexivity. Qed.

Lemma sum_cons (x : Z) (l : list Z) : sum (x :: l) = x + sum l.
Proof. unfold sum at 1. simpl. rewrite foldl_add_init. lia. Qed.

Lemma sum_app (l1 l2 : list Z) : sum (l1 ++ l2) = sum l1 + sum l2.
Proof.
  induction l1 as [|x l1 IH]; simpl; [rewrite sum_nil; lia|].
  rewrite !sum_cons, IH. lia.
Qed.

Lemma sum_Permutation (l1 l2 : list Z) : l1 ≡ₚ l2 → sum l1 = sum l2.
Proof.
  induction 1; rewrite ?sum_cons in *; lia.
Qed.

Lemma sum_nonneg (l : list Z) : Forall (λ x, 0 ≤ x) l → 0 ≤ sum l.
Proof. induction 1; rewrite ?sum_nil, ?sum_cons; lia. Qed.

Lemma sum_zero (l : list Z) :
  Forall (λ x, 0 ≤ x) l → sum l = 0 → Forall (λ x, x = 0) l.
Proof.
  induction 1 as [|x l Hx Hl IH]; [constructor|].
  rewrite sum_cons. intros Hs. pose proof (sum_nonneg l Hl).
  constructor; [lia|apply IH; lia].
Qed.

(** A loop that adds [f i x] for every [(i, x)] of [enumerate] computes
    the sum of the [f i x]. *)
Lemma running_total {A} (f : Z → A → Z) (l : list A) (k a : Z) :
  foldl (λ score '(i, x), score + f i x) a (enumerate_from k l)
  = a + sum (imap (λ i x, f (k + Z.of_nat i) x) l).
Proof.
  revert k a. induction l as [|x l IH]; intros k a; simpl.
  - rewrite sum_nil. lia.
  - rewrite IH, sum_cons. replace (k + Z.of_nat 0) with k by lia.
    rewrite <- Z.add_assoc. do 2 f_equal. f_equal.
    apply imap_ext. intros i y _. simpl. f_equal. lia.
Qed.

Lemma enumerate_from_lookup {A} (l : list A) (k : Z) (i : nat) :
  enumerate_from k l !! i = (λ x, (k + Z.of_nat i, x)) <$> l !! i.
Proof.
  revert k i. induction l as [|x l IH]; intros k [|i]; simpl; try done.
  - do 2 f_equal. lia.
  - rewrite IH. destruct (l !! i); simpl; [|done]. do 2 f_equal. lia.
Qed.

Lemma length_enumerate_from {A} (l : list A) (k : Z) :
  length (enumerate_from k l) = length l.
Proof. revert k. induction l; intros; simpl; auto. Qed.

(** A dictionary comprehension over items with distinct names holds, for
    each name, the value of the item with that name. *)
Lemma dict_of_items_lookup (f : Item → Z) (its : list Item)
    (m0 : gmap string Z) (nm : string) (v : Z) :
  NoDup (name <$> its) →
  (foldl (λ m it, <[name it := f it]> m) m0 its !! nm = Some v) ↔
  (∃ it, it ∈ its ∧ name it = nm ∧ f it = v) ∨
  ((nm ∉ name <$> its) ∧ m0 !! nm = Some v).
Proof.
  revert m0. induction its as [|x its IH]; intros m0 Hnd.
  - simpl. split; [intros H; right; split; [apply not_elem_of_nil|done]|].
    intros [(it & Hin & _)|[_ H]]; [by apply elem_of_nil in Hin|done].
  - rewrite fmap_cons in *. apply NoDup_cons in Hnd as [Hx Hnd].
    cbn [foldl]. rewrite (IH _ Hnd). split.
    + intros [(it & Hin & Hn & Hv)|[Hnot Hl]].
      * left. exists it. split; [by right|done].
      * destruct (decide (name x = nm)) as [Heq|Hne].
        -- rewrite <- Heq, lookup_insert_eq in Hl. left. exists x.
           split; [by left|]. split; [done|congruence].
        -- rewrite lookup_insert_ne in Hl by done. right. split; [|done].
           intros [?|?]%elem_of_cons; congruence.
    + intros [(it & [->|Hin]%elem_of_cons & Hn & Hv)|[Hnot Hl]].
      * right. split; [by rewrite <- Hn|].
        rewrite Hn, lookup_insert_eq. congruence.
      * left. by exists it.
      * right. apply not_elem_of_cons in Hnot as [Hne Hnot].
        split; [done|]. by rewrite lookup_insert_ne.
Qed.

(** ** The reference table *)

Lemma same_table : MoonSurvival.OFFICIAL_ITEMS = App.OFFICIAL_ITEMS.
Proof. reflexivity. Qed.

Lemma len_OFFICIAL_ITEMS : len App.OFFICIAL_ITEMS = 15.
Proof. reflexivity. Qed.

Lemma NoDup_reference_names : NoDup reference_names.
Proof. apply (bool_decide_unpack _). vm_compute. exact I. Qed.

Lemma NoDup_OFFICIAL_ITEMS : NoDup App.OFFICIAL_ITEMS.
Proof.
  apply (NoDup_fmap_1 name). apply NoDup_reference_names.
Qed.

Lemma official_item_index (it : Item) :
  it ∈ App.OFFICIAL_ITEMS →
  1 ≤ official_rank it ≤ 15 ∧
  App.OFFICIAL_ITEMS !! Z.to_nat (official_rank it - 1) = Some it.
Proof.
  revert it. apply Forall_forall.
  repeat (constructor; [split; [simpl; lia|reflexivity]|]). constructor.
Qed.

Lemma off_map_lookup (nm : string) (r : Z) :
  App.off_map !! nm = Some r ↔
  ∃ it, it ∈ App.OFFICIAL_ITEMS ∧ name it = nm ∧ official_rank it - 1 = r.
Proof.
  unfold App.off_map.
  rewrite (dict_of_items_lookup (λ it, official_rank it - 1))
    by apply NoDup_reference_names.
  rewrite lookup_empty. split; [intros [H|[_ H]]; done|intros H; by left].
Qed.

Lemma off_map_item (it : Item) :
  it ∈ App.OFFICIAL_ITEMS →
  App.off_map !! name it = Some (official_rank it - 1).
Proof. intros Hin. apply off_map_lookup. by exists it. Qed.

Lemma off_map_unknown (nm : string) :
  nm ∉ reference_names → App.off_map !! nm = None.
Proof.
  intros Hnot. destruct (App.off_map !! nm) as [r|] eqn:E; [|done].
  apply off_map_lookup in E as (it & Hin & <- & _).
  destruct Hnot. unfold reference_names. by apply list_elem_of_fmap_2.
Qed.

Lemma off_pos_map_item (it : Item) :
  it ∈ App.OFFICIAL_ITEMS →
  App.off_pos_map !! name it = Some (official_rank it).
Proof.
  intros Hin. unfold App.off_pos_map.
  apply (dict_of_items_lookup official_rank);
    [apply NoDup_reference_names|]. left. by exists it.
Qed.

Lemma off_pos_map_unknown (nm : string) :
  nm ∉ reference_names → App.off_pos_map !! nm = None.
Proof.
  intros Hnot. destruct (App.off_pos_map !! nm) as [r|] eqn:E; [|done].
  unfold App.off_pos_map in E.
  apply (dict_of_items_lookup official_rank) in E;
    [|apply NoDup_reference_names].
  destruct E as [(it & Hin & <- & _)|[_ E]]; [|by rewrite lookup_empty in E].
  destruct Hnot. unfold reference_names. by apply list_elem_of_fmap_2.
Qed.

Lemma off_map_reference (nm : string) (i : nat) :
  App.off_map !! nm = Some (Z.of_nat i) → reference_names !! i = Some nm.
Proof.
  intros (it & Hin & <- & Hr)%off_map_lookup.
  apply official_item_index in Hin as [_ Hl].
  rewrite Hr, Nat2Z.id in Hl. unfold reference_names.
  by rewrite list_lookup_fmap, Hl.
Qed.

Lemma contribution_nonneg (i : Z) (nm : string) : 0 ≤ App.contribution i nm.
Proof.
  unfold App.contribution. destruct (App.off_map !! nm).
  - lia.
  - rewrite len_OFFICIAL_ITEMS. lia.
Qed.

Lemma contribution_zero (i : Z) (nm : string) :
  App.contribution i nm = 0 → App.off_map !! nm = Some i.
Proof.
  unfold App.contribution. destruct (App.off_map !! nm) as [r|].
  - intros H. f_equal. lia.
  - rewrite len_OFFICIAL_ITEMS. lia.
Qed.

Lemma calculate_score_sum (submitted_names : list string) :
  App.calculate_score submitted_names
  = sum (imap (λ i nm, App.contribution (Z.of_nat i) nm) submitted_names).
Proof.
  unfold App.calculate_score, enumerate.
  rewrite (running_total App.contribution). simpl. done.
Qed.

(** ** The score *)

(** C1. The score is the sum, over the positions [i] of the submission,
    of one contribution: [|r0 - i|] with [r0 = official_rank - 1] when the
    name at [i] is the name of a reference item, and exactly 15 when it is
    not a reference name, whatever the position. *)
Theorem score_is_sum_of_contributions (submitted_names : list string) :
  App.calculate_score submitted_names
  = sum (imap (λ i nm, App.contribution (Z.of_nat i) nm) submitted_names)
  ∧ (∀ (i : Z) (it : Item), it ∈ App.OFFICIAL_ITEMS →
       App.contribution i (name it) = Z.abs ((official_rank it - 1) - i))
  ∧ (∀ (i : Z) (nm : string), nm ∉ reference_names →
       App.contribution i nm = 15).
Proof.
  split; [apply calculate_score_sum|]. split.
  - intros i it Hin. unfold App.contribution. by rewrite off_map_item.
  - intros i nm Hnot. unfold App.contribution.
    by rewrite off_map_unknown.
Qed.

Lemma score_is_sum_of_contributions_witness :
  App.calculate_score ("X" :: drop 1 reference_names)
  = sum (imap (λ i nm, App.contribution (Z.of_nat i) nm)
              ("X" :: drop 1 reference_names))
  ∧ App.contribution 0 (name (mkItem "水" 2 "補充液體")) = Z.abs ((2 - 1) - 0)
  ∧ App.contribution 0 "X" = 15
  ∧ App.contribution 9 "X" = 15.
Proof.
  destruct (score_is_sum_of_contributions ("X" :: drop 1 reference_names))
    as (Hsum & Hknown & Hunknown).
  split; [exact Hsum|]. split.
  - apply (Hknown 0 (mkItem "水" 2 "補充液體")).
    apply (bool_decide_unpack _). vm_compute. exact I.
  - split; apply Hunknown; apply (bool_decide_unpack _); vm_compute; exact I.
Defined.

Lemma calculate_score_nonneg (l : list string) : 0 ≤ App.calculate_score l.
Proof.
  rewrite calculate_score_sum. apply sum_nonneg.
  apply Forall_lookup. intros i x. rewrite list_lookup_imap.
  destruct (l !! i); simpl; [|done]. intros [= <-].
  apply contribution_nonneg.
Qed.

Lemma score_zero_reference (p : list string) :
  length p = length reference_names →
  App.calculate_score p = 0 → p = reference_names.
Proof.
  intros Hlen Hz. rewrite calculate_score_sum in Hz.
  apply sum_zero in Hz.
  2:{ apply Forall_lookup. intros i x. rewrite list_lookup_imap.
      destruct (p !! i); simpl; [|done]. intros [= <-].
      apply contribution_nonneg. }
  apply list_eq. intros i. destruct (p !! i) as [nm|] eqn:E.
  - symmetry. apply off_map_reference, contribution_zero.
    rewrite Forall_lookup in Hz. apply (Hz i).
    by rewrite list_lookup_imap, E.
  - symmetry. apply lookup_ge_None. apply lookup_ge_None in E. lia.
Qed.

(** C2. A permutation of the 15 reference names scores 0 exactly when it
    is the reference order, and the score of any sequence of names is a
    non-negative integer. *)
Theorem score_zero_iff_reference_order :
  (∀ p : list string, p ≡ₚ reference_names →
     (App.calculate_score p = 0 ↔ p = reference_names))
  ∧ (∀ l : list string, 0 ≤ App.calculate_score l).
Proof.
  split; [|apply calculate_score_nonneg].
  intros p Hp. split.
  - apply score_zero_reference. by rewrite Hp.
  - intros ->. vm_compute. reflexivity.
Qed.

Lemma score_zero_iff_reference_order_witness :
  (App.calculate_score reference_names = 0 ↔ reference_names = reference_names)
  ∧ 0 ≤ App.calculate_score ["X"; "水"].
Proof.
  destruct score_zero_iff_reference_order as [Hiff Hnonneg].
  split; [apply (Hiff reference_names); reflexivity|apply Hnonneg].
Defined.

Lemma contribution_deviation (i : Z) (nm : string) :
  App.contribution i nm ≤ deviation nm + Z.abs (i - 7).
Proof.
  unfold App.contribution, deviation. destruct (App.off_map !! nm).
  - lia.
  - rewrite len_OFFICIAL_ITEMS. lia.
Qed.

Lemma contributions_spread (l : list string) (k : Z) :
  sum (imap (λ i nm, App.contribution (k + Z.of_nat i) nm) l)
  ≤ sum (deviation <$> l) + index_spread k (length l).
Proof.
  revert k. induction l as [|x l IH]; intros k.
  - simpl. rewrite sum_nil. lia.
  - rewrite imap_cons, fmap_cons, !sum_cons. cbn [length index_spread].
    replace (k + Z.of_nat 0) with k by lia.
    pose proof (contribution_deviation k x). specialize (IH (k + 1)).
    rewrite (imap_ext _ (λ i nm, App.contribution (k + 1 + Z.of_nat i) nm)).
    + lia.
    + intros i y _. simpl. f_equal. lia.
Qed.

Lemma score_of_permutation_le (q : list string) :
  q ≡ₚ reference_names → App.calculate_score q ≤ 112.
Proof.
  intros Hq. rewrite calculate_score_sum.
  pose proof (contributions_spread q 0) as H. simpl in H.
  rewrite (sum_Permutation (deviation <$> q) (deviation <$> reference_names))
    in H by (by rewrite Hq).
  rewrite (Permutation_length Hq) in H.
  replace (sum (deviation <$> reference_names)) with 56 in H
    by (vm_compute; reflexivity).
  replace (index_spread 0 (length reference_names)) with 56 in H
    by (vm_compute; reflexivity).
  exact H.
Qed.

(** C9, as the specification words it, fails: reversing the permutation
    that is itself the reversed reference order gives the reference order,
    whose score 0 is below the score 2 of the order with the first two
    names swapped. *)
Lemma reversing_any_permutation_not_worst :
  ¬ (∀ p q : list string,
       p ≡ₚ reference_names → q ≡ₚ reference_names →
       App.calculate_score q ≤ App.calculate_score (reverse p)).
Proof.
  intros H.
  specialize (H (reverse reference_names)
                ("水" :: "氧氣瓶" :: drop 2 reference_names)).
  assert (App.calculate_score ("水" :: "氧氣瓶" :: drop 2 reference_names)
          ≤ App.calculate_score (reverse (reverse reference_names))) as Hle.
  { apply H; [apply reverse_Permutation|apply perm_swap]. }
  vm_compute in Hle. by apply Hle.
Qed.

(** C9, amended. The reversed reference order has the greatest score
    among the permutations of the reference names, and that score is
    112, the integer part of 15 * 15 / 2. *)
Theorem reversed_reference_is_worst (q : list string) :
  q ≡ₚ reference_names →
  App.calculate_score q ≤ App.calculate_score (reverse reference_names)
  ∧ App.calculate_score (reverse reference_names) = 112
  ∧ 112 = (len App.OFFICIAL_ITEMS * len App.OFFICIAL_ITEMS) `div` 2.
Proof.
  intros Hq. assert (App.calculate_score (reverse reference_names) = 112)
    as Hrev by (vm_compute; reflexivity).
  rewrite Hrev. split; [by apply score_of_permutation_le|].
  split; [done|]. vm_compute. reflexivity.
Qed.

Lemma reversed_reference_is_worst_witness :
  "水" :: "氧氣瓶" :: drop 2 reference_names ≡ₚ reference_names
  ∧ App.calculate_score ("水" :: "氧氣瓶" :: drop 2 reference_names)
    ≤ App.calculate_score (reverse reference_names)
  ∧ App.calculate_score (reverse reference_names) = 112
  ∧ 112 = (len App.OFFICIAL_ITEMS * len App.OFFICIAL_ITEMS) `div` 2.
Proof.
  assert ("水" :: "氧氣瓶" :: drop 2 reference_names ≡ₚ reference_names)
    as Hswap by apply perm_swap.
  split; [exact Hswap|].
  exact (reversed_reference_is_worst
           ("水" :: "氧氣瓶" :: drop 2 reference_names) Hswap).
Defined.

(** What [display_results] prints as the worst possible score is 105,
    below the score of the reversed reference order. *)
Lemma worst_possible_score_printed :
  MoonSurvival.worst_possible_score MoonSurvival.init = 105
  ∧ 105 < App.calculate_score (reverse reference_names).
Proof. split; vm_compute; reflexivity. Qed.

(** ** The per-item breakdown *)

Lemma calculate_score_prefix (order : list string) (i : nat) (nm : string) :
  order !! i = Some nm →
  App.calculate_score (take (S i) order)
  = App.calculate_score (take i order) + App.contribution (Z.of_nat i) nm.
Proof.
  intros Hi. rewrite (take_S_r order i nm Hi), !calculate_score_sum.
  rewrite imap_app, sum_app. cbn [imap]. rewrite sum_cons, sum_nil.
  rewrite length_take_le by (apply lookup_lt_Some in Hi; lia).
  rewrite Nat.add_0_r. lia.
Qed.

(** C4. In the breakdown of a submission, the entry for position [i]
    holding the name of a reference item has as difference
    [|official_rank - (i + 1)|], which is [|(official_rank - 1) - i|],
    what the position adds to the score: the score of the body is
    [calculate_score] of the submission, the sum of the contributions of
    its positions, and the running total of [calculate_score] grows by
    that difference at position [i]. For a name that is not a reference
    name both the rank and the difference are [None], and the running
    total grows by 15. *)
Theorem detail_agrees_with_score (order : list string) (i : nat)
    (nm : string) :
  length order = 15%nat → order !! i = Some nm →
  ∃ body e,
    App.evaluate order = App.Ok200 body
    ∧ App.ev_per_item body !! i = Some e
    ∧ App.pi_name e = nm
    ∧ App.pi_submitted_rank e = Z.of_nat i + 1
    ∧ App.ev_score body = App.calculate_score order
    ∧ App.calculate_score order
      = sum (imap (λ j n, App.contribution (Z.of_nat j) n) order)
    ∧ (∀ it, it ∈ App.OFFICIAL_ITEMS → name it = nm →
         App.pi_official_rank e = Some (official_rank it)
         ∧ App.pi_diff e = Some (Z.abs (official_rank it - (Z.of_nat i + 1)))
         ∧ Z.abs (official_rank it - (Z.of_nat i + 1))
           = Z.abs ((official_rank it - 1) - Z.of_nat i)
         ∧ Z.abs (official_rank it - (Z.of_nat i + 1))
           = App.contribution (Z.of_nat i) nm
         ∧ App.calculate_score (take (S i) order)
           = App.calculate_score (take i order)
             + Z.abs (official_rank it - (Z.of_nat i + 1)))
    ∧ (nm ∉ reference_names →
         App.pi_official_rank e = None ∧ App.pi_diff e = None
         ∧ App.calculate_score (take (S i) order)
           = App.calculate_score (take i order) + 15).
Proof.
  intros Hlen Hi. unfold App.evaluate.
  destruct (decide (len order ≠ len App.OFFICIAL_ITEMS)) as [Hne|_].
  { destruct Hne. unfold len. by rewrite Hlen. }
  eexists _, (App.per_item_of (Z.of_nat i) nm).
  split; [reflexivity|]. cbn [App.ev_per_item App.ev_score]. split.
  { unfold enumerate. rewrite list_lookup_fmap, enumerate_from_lookup, Hi.
    simpl. done. }
  split; [done|]. split; [done|]. split; [done|].
  split; [apply calculate_score_sum|].
  rewrite (calculate_score_prefix order i nm Hi). split.
  - intros it Hin <-. unfold App.per_item_of.
    cbn [App.pi_official_rank App.pi_diff].
    rewrite (off_pos_map_item it Hin). unfold App.contribution.
    rewrite (off_map_item it Hin). repeat split; f_equal; lia.
  - intros Hnot. unfold App.per_item_of.
    cbn [App.pi_official_rank App.pi_diff].
    rewrite (off_pos_map_unknown nm Hnot). unfold App.contribution.
    by rewrite (off_map_unknown nm Hnot).
Qed.

Lemma detail_agrees_with_score_witness :
  length ("X" :: drop 1 reference_names) = 15%nat
  ∧ ("X" :: drop 1 reference_names) !! 1%nat = Some "水"
  ∧ ("X" :: drop 1 reference_names) !! 0%nat = Some "X"
  ∧ mkItem "水" 2 "補充液體" ∈ App.OFFICIAL_ITEMS
  ∧ ("X" ∉ reference_names)
  ∧ (∃ body e,
       App.evaluate ("X" :: drop 1 reference_names) = App.Ok200 body
       ∧ App.ev_per_item body !! 1%nat = Some e
       ∧ App.ev_score body
         = App.calculate_score ("X" :: drop 1 reference_names)
       ∧ App.pi_official_rank e = Some 2
       ∧ App.pi_diff e = Some (Z.abs (2 - (Z.of_nat 1 + 1)))
       ∧ App.calculate_score (take 2 ("X" :: drop 1 reference_names))
         = App.calculate_score (take 1 ("X" :: drop 1 reference_names))
           + Z.abs (2 - (Z.of_nat 1 + 1)))
  ∧ (∃ body e,
       App.evaluate ("X" :: drop 1 reference_names) = App.Ok200 body
       ∧ App.ev_per_item body !! 0%nat = Some e
       ∧ App.pi_official_rank e = None ∧ App.pi_diff e = None
       ∧ App.calculate_score (take 1 ("X" :: drop 1 reference_names))
         = App.calculate_score (take 0 ("X" :: drop 1 reference_names))
           + 15).
Proof.
  assert (mkItem "水" 2 "補充液體" ∈ App.OFFICIAL_ITEMS) as Hwater
    by (apply (bool_decide_unpack _); vm_compute; exact I).
  assert ("X" ∉ reference_names) as HX
    by (apply (bool_decide_unpack _); vm_compute; exact I).
  split; [reflexivity|]. split; [reflexivity|]. split; [reflexivity|].
  split; [exact Hwater|]. split; [exact HX|]. split.
  - destruct (detail_agrees_with_score ("X" :: drop 1 reference_names) 1 "水"
                eq_refl eq_refl)
      as (body & e & Hev & He & _ & _ & Hscore & _ & Hknown & _).
    destruct (Hknown (mkItem "水" 2 "補充液體") Hwater eq_refl)
      as (Hrank & Hdiff & _ & _ & Hstep).
    exists body, e. repeat split; assumption.
  - destruct (detail_agrees_with_score ("X" :: drop 1 reference_names) 0 "X"
                eq_refl eq_refl)
      as (body & e & Hev & He & _ & _ & _ & _ & _ & Hunknown).
    destruct (Hunknown HX) as (Hrank & Hdiff & Hstep).
    exists body, e. repeat split; assumption.
Defined.

(** ** The accuracy of a ranking of items *)

Lemma calculate_accuracy_sum (ranking : list Item) :
  MoonSurvival.calculate_accuracy ranking
  = sum (imap (λ i it, Z.abs ((official_rank it - 1) - Z.of_nat i)) ranking).
Proof.
  unfold MoonSurvival.calculate_accuracy, enumerate.
  rewrite (running_total (λ i it, Z.abs ((official_rank it - 1) - i))).
  simpl. done.
Qed.

Lemma accuracy_is_score (ranking : list Item) :
  (∀ it, it ∈ ranking → it ∈ App.OFFICIAL_ITEMS) →
  MoonSurvival.calculate_accuracy ranking
  = App.calculate_score (name <$> ranking).
Proof.
  intros Hall. rewrite calculate_accuracy_sum, calculate_score_sum.
  rewrite imap_fmap. f_equal. apply imap_ext. intros i it Hi. simpl.
  unfold App.contribution. rewrite off_map_item; [done|].
  apply Hall. by eapply list_elem_of_lookup_2.
Qed.

(** C7. The accuracy of a sequence of items is the sum over its
    positions [i] of [|official_rank - 1 - i|], and on a permutation of the
    15 reference items it is the score of the sequence of their names. *)
Theorem accuracy_same_metric_as_score :
  (∀ ranking : list Item,
     MoonSurvival.calculate_accuracy ranking
     = sum (imap (λ i it, Z.abs (official_rank it - 1 - Z.of_nat i)) ranking))
  ∧ (∀ ranking : list Item,
       ranking ≡ₚ MoonSurvival.OFFICIAL_ITEMS →
       MoonSurvival.calculate_accuracy ranking
       = App.calculate_score (name <$> ranking)).
Proof.
  split; [apply calculate_accuracy_sum|].
  intros ranking Hp. apply accuracy_is_score. intros it Hin.
  rewrite <- same_table. by rewrite <- Hp.
Qed.

Lemma accuracy_same_metric_as_score_witness :
  MoonSurvival.calculate_accuracy (reverse MoonSurvival.OFFICIAL_ITEMS)
  = sum (imap (λ i it, Z.abs (official_rank it - 1 - Z.of_nat i))
              (reverse MoonSurvival.OFFICIAL_ITEMS))
  ∧ MoonSurvival.calculate_accuracy (reverse MoonSurvival.OFFICIAL_ITEMS)
    = App.calculate_score (name <$> reverse MoonSurvival.OFFICIAL_ITEMS).
Proof.
  destruct accuracy_same_metric_as_score as [Hsum Hscore].
  split; [apply Hsum|]. apply Hscore. apply reverse_Permutation.
Defined.

(** ** The stable sort *)
Section StableSortFacts.
Context {K A : Type} (leb : K → K → bool).
Hypothesis leb_total : ∀ a b, leb a b = false → leb b a = true.
Hypothesis leb_trans : ∀ a b c,
  leb a b = true → leb b c = true → leb a c = true.

Context (R0 : A → A → Prop).

Lemma insert_by_key_Permutation (x : K * A) (l : list (K * A)) :
  insert_by_key leb x l ≡ₚ x :: l.
Proof.
  induction l as [|y l IH]; simpl; [done|].
  destruct (leb x.1 y.1); [done|]. rewrite IH. apply perm_swap.
Qed.

Lemma stable_sort_Permutation (l : list (K * A)) :
  stable_sort leb l ≡ₚ l.
Proof.
  induction l as [|x l IH]; simpl; [done|].
  by rewrite insert_by_key_Permutation, IH.
Qed.

Lemma insert_by_key_sorted (x : K * A) (l : list (K * A)) :
  Forall (λ y, R0 x.2 y.2) l →
  StronglySorted (key_then_input leb R0) l →
  StronglySorted (key_then_input leb R0) (insert_by_key leb x l).
Proof.
  intros Hx Hl. induction Hl as [|y l Hl IH Hy]; simpl.
  - repeat constructor.
  - apply Forall_cons in Hx as [Hxy Hx].
    destruct (leb x.1 y.1) eqn:E.
    + constructor; [by constructor|].
      constructor; [by split|].
      rewrite Forall_forall in Hy, Hx |- *. intros z Hz.
      destruct (Hy z Hz) as [Hyz _].
      split; [by eapply leb_trans|]. intros _. by apply Hx.
    + constructor; [by apply IH|].
      rewrite insert_by_key_Permutation. constructor; [|done].
      split; [by apply leb_total|]. intros H. congruence.
Qed.

Lemma stable_sort_sorted (l : list (K * A)) :
  StronglySorted R0 l.*2 →
  StronglySorted (key_then_input leb R0) (stable_sort leb l).
Proof.
  induction l as [|x l IH]; [constructor|].
  rewrite fmap_cons. intros [Hx Hl]%StronglySorted_cons.
  cbn [stable_sort]. apply insert_by_key_sorted; [|by apply IH].
  rewrite stable_sort_Permutation.
  rewrite Forall_fmap in Hx. exact Hx.
Qed.
End StableSortFacts.

Lemma StronglySorted_lookup {A} (R : A → A → Prop) (l : list A)
    (i j : nat) (x y : A) :
  StronglySorted R l → (i < j)%nat →
  l !! i = Some x → l !! j = Some y → R x y.
Proof.
  intros Hl. revert i j. induction Hl as [|z l Hl IH Hz]; intros i j Hij.
  - by rewrite lookup_nil.
  - destruct j as [|j]; [lia|]. destruct i as [|i]; simpl.
    + intros [= <-] Hy. rewrite Forall_forall in Hz. apply Hz.
      by eapply list_elem_of_lookup_2.
    + apply IH. lia.
Qed.

Lemma StronglySorted_before_suffix {A} (pre l : list A) :
  StronglySorted (before (pre ++ l)) l.
Proof.
  revert pre. induction l as [|x l IH]; intros pre; [constructor|].
  constructor.
  - replace (pre ++ x :: l) with ((pre ++ [x]) ++ l)
      by (by rewrite <- app_assoc). apply IH.
  - apply Forall_lookup. intros j y Hj.
    exists (length pre), (length pre + S j)%nat.
    split; [by rewrite list_lookup_middle|].
    split; [|lia]. rewrite lookup_app_r by lia.
    replace (length pre + S j - length pre)%nat with (S j) by lia. done.
Qed.

Lemma StronglySorted_before {A} (l : list A) : StronglySorted (before l) l.
Proof. apply (StronglySorted_before_suffix []). Qed.

(** ** The aggregation *)

Lemma for_each_pure {A S} (l : list A) (body : S → A → result S)
    (g : S → A → S) (s : S) :
  (∀ s x, x ∈ l → body s x = Ok (g s x)) →
  for_each l body s = Ok (foldl g s l).
Proof.
  revert s. induction l as [|x l IH]; intros s Hb; [done|].
  cbn [for_each foldl]. rewrite Hb by left. cbn.
  apply IH. intros s' y Hy. apply Hb. by right.
Qed.

Lemma comprehension_pure {A B} (f : A → result B) (g : A → B) (l : list A) :
  (∀ x, x ∈ l → f x = Ok (g x)) → comprehension f l = Ok (g <$> l).
Proof.
  induction l as [|x l IH]; intros Hf; [done|].
  cbn [comprehension]. rewrite Hf by left. cbn.
  rewrite IH; [done|]. intros y Hy. apply Hf. by right.
Qed.

Lemma zip_decorate {A B} (g : A → B) (l : list A) :
  zip (g <$> l) l = (λ x, (g x, x)) <$> l.
Proof. induction l as [|x l IH]; [done|]. cbn. by rewrite IH. Qed.

Lemma rank_in_from (r : list Item) (it : Item) (k : Z) :
  next ((λ p, p.1 + 1) <$>
          filter (λ p : Z * Item, name p.2 = name it) (enumerate_from k r)) 0
  = match list_find (λ x, name x = name it) r with
    | Some (i, _) => 1 + (k + Z.of_nat i)
    | None => 0
    end.
Proof.
  revert k. induction r as [|x r IH]; intros k; [done|].
  cbn [enumerate_from list_find]. rewrite filter_cons. cbn [snd].
  destruct (decide (name x = name it)) as [E|E].
  - cbn. lia.
  - rewrite IH. destruct (list_find _ r) as [[i y]|]; cbn; [lia|done].
Qed.

Lemma rank_in_position (r : list Item) (it : Item) :
  MoonSurvival.rank_in r it = position_of (name it) r.
Proof.
  unfold MoonSurvival.rank_in, enumerate, position_of.
  rewrite rank_in_from. by destruct (list_find _ r) as [[i y]|].
Qed.

Lemma position_of_absent (nm : string) (r : list Item) :
  nm ∉ (name <$> r) → position_of nm r = 0.
Proof.
  intros Hnot. unfold position_of.
  destruct (list_find _ r) as [[i y]|] eqn:E; [|done].
  apply list_find_Some in E as (Hi & Hy & _). destruct Hnot.
  rewrite <- Hy. apply list_elem_of_fmap_2. by eapply list_elem_of_lookup_2.
Qed.

Lemma position_of_lookup (r : list Item) (i : nat) (x : Item) :
  NoDup (name <$> r) → r !! i = Some x →
  position_of (name x) r = 1 + Z.of_nat i.
Proof.
  intros Hnd Hi. unfold position_of.
  destruct (list_find _ r) as [[j y]|] eqn:E.
  - apply list_find_Some in E as (Hj & Hy & _).
    f_equal. f_equal. eapply NoDup_lookup; [exact Hnd| |].
    + by rewrite list_lookup_fmap, Hj.
    + rewrite list_lookup_fmap, Hi. simpl. congruence.
  - apply list_find_None in E. rewrite Forall_forall in E.
    destruct (E x); [by eapply list_elem_of_lookup_2|done].
Qed.

Lemma values_nonempty {V} (d : gmap string V) :
  d ≠ ∅ → length (MoonSurvival.values d) ≠ 0%nat.
Proof.
  intros Hd. unfold MoonSurvival.values.
  rewrite length_fmap, length_map_to_list. by apply map_size_non_empty_iff.
Qed.

Lemma truediv_mean (scores : list Z) :
  length scores ≠ 0%nat →
  truediv (sum scores) (len scores) = Ok (mean_of scores).
Proof.
  intros Hl. unfold truediv, len, mean_of.
  destruct (decide (Z.of_nat (length scores) = 0)); [lia|done].
Qed.

(** A dictionary filled, for each item, with a value that depends on
    its name only. *)
Lemma dict_by_name_lookup {V} (h : string → V) (its : list Item)
    (m0 : gmap string V) (nm : string) :
  foldl (λ m x, <[name x := h (name x)]> m) m0 its !! nm
  = if decide (nm ∈ name <$> its) then Some (h nm) else m0 !! nm.
Proof.
  revert m0. induction its as [|x its IH]; intros m0.
  - cbn [foldl]. rewrite decide_False; [done|]. apply not_elem_of_nil.
  - cbn [foldl]. rewrite IH, fmap_cons.
    destruct (decide (nm ∈ name <$> its)) as [Hin|Hnin].
    + rewrite decide_True; [done|]. by right.
    + destruct (decide (name x = nm)) as [E|E].
      * rewrite decide_True by (rewrite E; left).
        by rewrite <- E, lookup_insert_eq.
      * rewrite decide_False by (intros [?|?]%elem_of_cons; congruence).
        by rewrite lookup_insert_ne.
Qed.

Lemma item_scores_ok (self : MoonSurvival.MoonSurvivalExperiment) :
  MoonSurvival.individual_rankings self ≠ ∅ →
  MoonSurvival.item_scores self
  = Ok (foldl (λ m x, <[name x := mean_position self (name x)]> m) ∅
              (MoonSurvival.items self)).
Proof.
  intros Hne. unfold MoonSurvival.item_scores.
  apply for_each_pure. intros m x _.
  rewrite truediv_mean by (rewrite length_fmap; by apply values_nonempty).
  cbn. do 2 f_equal. unfold mean_position. f_equal.
  apply list_fmap_ext. intros i r _. apply rank_in_position.
Qed.

Lemma calculate_team_ranking_ok (self : MoonSurvival.MoonSurvivalExperiment) :
  MoonSurvival.individual_rankings self ≠ ∅ →
  MoonSurvival.calculate_team_ranking self
  = Ok ({| MoonSurvival.items := MoonSurvival.items self;
           MoonSurvival.team_ranking :=
             (stable_sort Qle_bool (by_mean_position self)).*2;
           MoonSurvival.individual_rankings :=
             MoonSurvival.individual_rankings self |}, []).
Proof.
  intros Hne. unfold MoonSurvival.calculate_team_ranking.
  rewrite decide_False by done. rewrite item_scores_ok by done. cbn.
  unfold sorted.
  rewrite (comprehension_pure _ (λ it, mean_position self (name it))).
  - cbn. by rewrite zip_decorate.
  - intros it Hin. unfold getitem. rewrite dict_by_name_lookup.
    rewrite decide_True; [done|]. by apply list_elem_of_fmap_2.
Qed.

Lemma Qle_bool_total (a b : Q) : Qle_bool a b = false → Qle_bool b a = true.
Proof.
  intros H. apply Qle_bool_iff. destruct (Qlt_le_dec b a) as [Hlt|Hle].
  - by apply Qlt_le_weak.
  - apply Qle_bool_iff in Hle. congruence.
Qed.

Lemma Qle_bool_trans (a b c : Q) :
  Qle_bool a b = true → Qle_bool b c = true → Qle_bool a c = true.
Proof. rewrite !Qle_bool_iff. apply Qle_trans. Qed.

Lemma team_ranking_Permutation (self : MoonSurvival.MoonSurvivalExperiment) :
  (stable_sort Qle_bool (by_mean_position self)).*2
  ≡ₚ MoonSurvival.items self.
Proof.
  rewrite stable_sort_Permutation. unfold by_mean_position.
  rewrite <- list_fmap_compose. by rewrite list_fmap_id.
Qed.

(** The decorated ranking carries, with each item, its own mean. *)
Lemma team_ranking_keys (self : MoonSurvival.MoonSurvivalExperiment)
    (i : nat) (a : Item) :
  (stable_sort Qle_bool (by_mean_position self)).*2 !! i = Some a →
  stable_sort Qle_bool (by_mean_position self) !! i
  = Some (mean_position self (name a), a).
Proof.
  rewrite list_lookup_fmap.
  destruct (stable_sort Qle_bool (by_mean_position self) !! i)
    as [[k b]|] eqn:E; [|done].
  cbn. intros [= ->]. do 2 f_equal.
  apply list_elem_of_lookup_2 in E.
  rewrite stable_sort_Permutation in E.
  apply list_elem_of_fmap in E as (it & [= -> ->] & _). done.
Qed.

(** ** The claims on the aggregation *)

(** C3, as the specification words it, fails: on an experiment with no
    individual ranking, [calculate_team_ranking] raises nothing; it
    returns after printing one line. *)
Lemma empty_rankings_raise_nothing :
  MoonSurvival.calculate_team_ranking MoonSurvival.init
  = Ok (MoonSurvival.init, ["❌ 沒有個人排名資料"])
  ∧ ¬ ∃ e, MoonSurvival.calculate_team_ranking MoonSurvival.init = Raise e.
Proof.
  split; [reflexivity|]. intros [e He]. vm_compute in He. discriminate.
Qed.

(** C3, amended. With no individual ranking, [calculate_team_ranking]
    prints that there is no data and returns without an error; the team
    ranking, like the rest of the experiment, stays as it was. *)
Theorem empty_rankings_leave_team_ranking
    (self : MoonSurvival.MoonSurvivalExperiment) :
  MoonSurvival.individual_rankings self = ∅ →
  MoonSurvival.calculate_team_ranking self
  = Ok (self, ["❌ 沒有個人排名資料"]).
Proof.
  intros He. unfold MoonSurvival.calculate_team_ranking.
  by rewrite decide_True.
Qed.

Lemma empty_rankings_leave_team_ranking_witness :
  MoonSurvival.individual_rankings MoonSurvival.init = ∅
  ∧ MoonSurvival.calculate_team_ranking MoonSurvival.init
    = Ok (MoonSurvival.init, ["❌ 沒有個人排名資料"]).
Proof.
  split; [reflexivity|].
  apply (empty_rankings_leave_team_ranking MoonSurvival.init). reflexivity.
Defined.

Lemma position_of_present (nm : string) (r : list Item) :
  nm ∈ (name <$> r) → 1 ≤ position_of nm r ≤ Z.of_nat (length r).
Proof.
  intros Hin. unfold position_of.
  destruct (list_find _ r) as [[i y]|] eqn:E.
  - apply list_find_Some in E as (Hi & _ & _).
    apply lookup_lt_Some in Hi. lia.
  - apply list_find_None in E. rewrite Forall_forall in E.
    apply list_elem_of_fmap in Hin as (x & -> & Hx). by destruct (E x).
Qed.

(** C5. With at least one individual ranking, the value [item_scores]
    holds for an item is the arithmetic mean, over all the rankings, of
    the position of the item in the ranking: one plus the index of the
    first entry with its name, which is at least 1, and 0 for a ranking
    without the item, so that leaving an item out lowers its mean. *)
Theorem item_score_is_mean_position
    (self : MoonSurvival.MoonSurvivalExperiment) (it : Item) :
  MoonSurvival.individual_rankings self ≠ ∅ →
  it ∈ MoonSurvival.items self →
  ∃ m, MoonSurvival.item_scores self = Ok m
    ∧ m !! name it
      = Some (mean_of (position_of (name it) <$>
                MoonSurvival.values (MoonSurvival.individual_rankings self)))
    ∧ length (MoonSurvival.values (MoonSurvival.individual_rankings self))
      = size (MoonSurvival.individual_rankings self)
    ∧ (∀ r : list Item, name it ∉ (name <$> r) → position_of (name it) r = 0)
    ∧ (∀ r : list Item, name it ∈ (name <$> r) → 1 ≤ position_of (name it) r).
Proof.
  intros Hne Hin. eexists. split; [by apply item_scores_ok|].
  split; [|split; [|split]].
  - rewrite dict_by_name_lookup. rewrite decide_True; [done|].
    by apply list_elem_of_fmap_2.
  - unfold MoonSurvival.values. by rewrite length_fmap, length_map_to_list.
  - intros r. apply position_of_absent.
  - intros r Hr. by apply position_of_present.
Qed.

(** C10. With at least one individual ranking, whatever the rankings
    hold, the team ranking is a permutation of the reference items: 15
    items, each reference item once. *)
Theorem team_ranking_is_permutation
    (self : MoonSurvival.MoonSurvivalExperiment) :
  MoonSurvival.items self = MoonSurvival.OFFICIAL_ITEMS →
  MoonSurvival.individual_rankings self ≠ ∅ →
  ∃ self', MoonSurvival.calculate_team_ranking self = Ok (self', [])
    ∧ MoonSurvival.team_ranking self' ≡ₚ MoonSurvival.OFFICIAL_ITEMS
    ∧ length (MoonSurvival.team_ranking self') = 15%nat
    ∧ NoDup (MoonSurvival.team_ranking self')
    ∧ (∀ it, it ∈ MoonSurvival.OFFICIAL_ITEMS →
             it ∈ MoonSurvival.team_ranking self').
Proof.
  intros Hitems Hne. eexists. split; [by apply calculate_team_ranking_ok|].
  cbn [MoonSurvival.team_ranking].
  pose proof (team_ranking_Permutation self) as Hp. rewrite Hitems in Hp.
  split; [done|]. split; [by rewrite Hp|].
  split; [rewrite Hp; apply NoDup_OFFICIAL_ITEMS|].
  intros it Hin. by rewrite Hp.
Qed.

Lemma before_asym {A} (l : list A) (a b : A) :
  NoDup l → before l a b → before l b a → False.
Proof.
  intros Hnd (i & j & Hi & Hj & Hij) (j' & i' & Hj' & Hi' & Hji).
  assert (i = i') by eauto using NoDup_lookup.
  assert (j = j') by eauto using NoDup_lookup. lia.
Qed.

Lemma team_ranking_order (self : MoonSurvival.MoonSurvivalExperiment)
    (i j : nat) (a b : Item) :
  (i < j)%nat →
  (stable_sort Qle_bool (by_mean_position self)).*2 !! i = Some a →
  (stable_sort Qle_bool (by_mean_position self)).*2 !! j = Some b →
  (mean_position self (name a) <= mean_position self (name b))%Q
  ∧ ((mean_position self (name a) == mean_position self (name b))%Q →
     before (MoonSurvival.items self) a b).
Proof.
  intros Hij Ha%team_ranking_keys Hb%team_ranking_keys.
  assert (StronglySorted
            (key_then_input Qle_bool (before (MoonSurvival.items self)))
            (stable_sort Qle_bool (by_mean_position self))) as Hs.
  { apply stable_sort_sorted;
      [apply Qle_bool_total|apply Qle_bool_trans|].
    unfold by_mean_position. rewrite <- list_fmap_compose, list_fmap_id.
    apply StronglySorted_before. }
  destruct (StronglySorted_lookup _ _ i j _ _ Hs Hij Ha Hb) as [Hle Htie].
  cbn [fst snd] in Hle, Htie. split; [by apply Qle_bool_iff|].
  intros Heq. apply Htie. apply Qle_bool_iff. rewrite Heq. apply Qle_refl.
Qed.

(** C6. The team ranking holds the reference items, each once, in
    ascending order of their mean position: the value [item_scores]
    holds for an item is its mean position, an item stands before every
    item of greater mean position, and of two items with equal mean
    positions the one that stands first in the reference order stands
    first in the team ranking. *)
Theorem team_ranking_sorted_by_mean
    (self : MoonSurvival.MoonSurvivalExperiment) :
  MoonSurvival.items self = MoonSurvival.OFFICIAL_ITEMS →
  MoonSurvival.individual_rankings self ≠ ∅ →
  ∃ self' m,
    MoonSurvival.calculate_team_ranking self = Ok (self', [])
    ∧ MoonSurvival.item_scores self = Ok m
    ∧ MoonSurvival.team_ranking self' ≡ₚ MoonSurvival.OFFICIAL_ITEMS
    ∧ (∀ it : Item, it ∈ MoonSurvival.OFFICIAL_ITEMS →
         m !! name it
         = Some (mean_of (position_of (name it) <$>
                   MoonSurvival.values
                     (MoonSurvival.individual_rankings self))))
    ∧ (∀ (i j : nat) (a b : Item), (i < j)%nat →
         MoonSurvival.team_ranking self' !! i = Some a →
         MoonSurvival.team_ranking self' !! j = Some b →
         (mean_position self (name a) <= mean_position self (name b))%Q
         ∧ ∃ ka kb, m !! name a = Some ka ∧ m !! name b = Some kb
                    ∧ (ka <= kb)%Q)
    ∧ (∀ a b : Item,
         a ∈ MoonSurvival.OFFICIAL_ITEMS → b ∈ MoonSurvival.OFFICIAL_ITEMS →
         (mean_position self (name a) < mean_position self (name b))%Q →
         before (MoonSurvival.team_ranking self') a b)
    ∧ (∀ a b : Item,
         before MoonSurvival.OFFICIAL_ITEMS a b →
         (mean_position self (name a) == mean_position self (name b))%Q →
         before (MoonSurvival.team_ranking self') a b)
    ∧ (∀ (a b : Item) (ka kb : Q),
         before MoonSurvival.OFFICIAL_ITEMS a b →
         m !! name a = Some ka → m !! name b = Some kb → (ka == kb)%Q →
         before (MoonSurvival.team_ranking self') a b).
Proof.
  intros Hitems Hne. eexists _, _.
  split; [by apply calculate_team_ranking_ok|].
  split; [by apply item_scores_ok|]. cbn [MoonSurvival.team_ranking].
  pose proof (team_ranking_Permutation self) as Hp.
  assert (∀ a, a ∈ MoonSurvival.items self →
            foldl (λ m x, <[name x := mean_position self (name x)]> m)
                  (∅ : gmap string Q) (MoonSurvival.items self) !! name a
            = Some (mean_position self (name a))) as Hm.
  { intros a Ha. rewrite dict_by_name_lookup. rewrite decide_True; [done|].
    by apply list_elem_of_fmap_2. }
  assert (NoDup (MoonSurvival.items self)) as Hnd
    by (rewrite Hitems; apply NoDup_OFFICIAL_ITEMS).
  assert (∀ a b : Item,
            before (MoonSurvival.items self) a b →
            (mean_position self (name a) == mean_position self (name b))%Q →
            before (stable_sort Qle_bool (by_mean_position self)).*2 a b)
    as Hties.
  { intros a b Hab Heq. destruct Hab as (i0 & j0 & Hi0 & Hj0 & Hij0).
    assert (a ∈ MoonSurvival.items self) as Ha
      by (by eapply list_elem_of_lookup_2).
    assert (b ∈ MoonSurvival.items self) as Hb
      by (by eapply list_elem_of_lookup_2).
    rewrite <- Hp in Ha, Hb.
    apply list_elem_of_lookup_1 in Ha as [i Hi].
    apply list_elem_of_lookup_1 in Hb as [j Hj].
    destruct (lt_eq_lt_dec i j) as [[Hlt| ->]|Hgt].
    - by exists i, j.
    - rewrite Hi in Hj. injection Hj as ->.
      assert (i0 = j0) by eauto using NoDup_lookup. lia.
    - destruct (team_ranking_order self j i b a Hgt Hj Hi) as [_ Hba].
      destruct (before_asym (MoonSurvival.items self) a b Hnd).
      + by exists i0, j0.
      + apply Hba. by symmetry. }
  split; [by rewrite Hp, Hitems|]. split; [|split; [|split; [|split]]].
  - intros it Hin. rewrite <- Hitems in Hin. by rewrite (Hm it Hin).
  - intros i j a b Hij Ha Hb.
    destruct (team_ranking_order self i j a b Hij Ha Hb) as [Hle _].
    split; [done|].
    exists (mean_position self (name a)), (mean_position self (name b)).
    split; [|split; [|done]].
    + apply Hm. rewrite <- Hp. by eapply list_elem_of_lookup_2.
    + apply Hm. rewrite <- Hp. by eapply list_elem_of_lookup_2.
  - intros a b Ha Hb Hlt. rewrite <- Hitems, <- Hp in Ha, Hb.
    apply list_elem_of_lookup_1 in Ha as [i Hi].
    apply list_elem_of_lookup_1 in Hb as [j Hj].
    destruct (lt_eq_lt_dec i j) as [[Hij| ->]|Hji].
    + by exists i, j.
    + rewrite Hi in Hj. injection Hj as ->. by apply Qlt_irrefl in Hlt.
    + destruct (team_ranking_order self j i b a Hji Hj Hi) as [Hle _].
      by apply Qlt_not_le in Hlt.
  - intros a b Hab Heq. rewrite <- Hitems in Hab. by apply Hties.
  - intros a b ka kb Hab Hka Hkb Heq. rewrite <- Hitems in Hab.
    pose proof Hab as (i0 & j0 & Hi0 & Hj0 & _).
    rewrite (Hm a) in Hka by (by eapply list_elem_of_lookup_2).
    rewrite (Hm b) in Hkb by (by eapply list_elem_of_lookup_2).
    injection Hka as <-. injection Hkb as <-. by apply Hties.
Qed.

Lemma StronglySorted_from_lookup {A} (R : A → A → Prop) (l : list A) :
  (∀ (i j : nat) x y, (i < j)%nat →
     l !! i = Some x → l !! j = Some y → R x y) →
  StronglySorted R l.
Proof.
  induction l as [|z l IH]; intros H; [constructor|]. constructor.
  - apply IH. intros i j x y Hij Hx Hy. apply (H (S i) (S j)); [lia|done..].
  - apply Forall_lookup. intros j y Hy. apply (H 0%nat (S j)); [lia|done..].
Qed.

Lemma mean_of_single_le (x y : Z) :
  (mean_of [x] <= mean_of [y])%Q → x ≤ y.
Proof.
  unfold mean_of. rewrite !sum_cons, sum_nil. cbn [length].
  change (Z.of_nat 1) with 1.
  unfold Qle, Qdiv, Qmult, Qinv, inject_Z. cbn. lia.
Qed.

Lemma values_singleton {V} (person : string) (r : V) :
  MoonSurvival.values ({[person := r]} : gmap string V) = [r].
Proof. unfold MoonSurvival.values. by rewrite map_to_list_singleton. Qed.

Lemma official_name_inj (a b : Item) :
  a ∈ App.OFFICIAL_ITEMS → b ∈ App.OFFICIAL_ITEMS →
  name a = name b → a = b.
Proof.
  intros Ha Hb Hn. pose proof (off_map_item a Ha) as Hma.
  pose proof (off_map_item b Hb) as Hmb. rewrite Hn, Hmb in Hma.
  injection Hma as Hr.
  apply official_item_index in Ha as [_ Hia].
  apply official_item_index in Hb as [_ Hib].
  rewrite Hr in Hib. congruence.
Qed.

Lemma same_names_same_items (l1 l2 : list Item) :
  Forall (λ it, it ∈ App.OFFICIAL_ITEMS) l1 →
  Forall (λ it, it ∈ App.OFFICIAL_ITEMS) l2 →
  name <$> l1 = name <$> l2 → l1 = l2.
Proof.
  intros H1. revert l2. induction H1 as [|x l1 Hx H1 IH]; intros l2 H2.
  - destruct l2; [done|]. by rewrite fmap_cons, fmap_nil.
  - destruct H2 as [|y l2 Hy H2]; [by rewrite fmap_cons, fmap_nil|].
    rewrite !fmap_cons. intros [= Hn Hl]. f_equal.
    + by apply official_name_inj.
    + by apply IH.
Qed.

Lemma mean_position_single (self : MoonSurvival.MoonSurvivalExperiment)
    (person : string) (r : list Item) (nm : string) :
  MoonSurvival.individual_rankings self = {[person := r]} →
  mean_position self nm = mean_of [position_of nm r].
Proof.
  intros Hr. unfold mean_position. by rewrite Hr, values_singleton.
Qed.

Lemma single_submission_names (self : MoonSurvival.MoonSurvivalExperiment)
    (person : string) (r : list Item) :
  MoonSurvival.items self = MoonSurvival.OFFICIAL_ITEMS →
  MoonSurvival.individual_rankings self = {[person := r]} →
  name <$> r ≡ₚ reference_names →
  name <$> (stable_sort Qle_bool (by_mean_position self)).*2 = name <$> r.
Proof.
  intros Hitems Hr Hperm.
  assert (NoDup (name <$> r)) as Hnd
    by (rewrite Hperm; apply NoDup_reference_names).
  pose proof (team_ranking_Permutation self) as Hp. rewrite Hitems in Hp.
  apply (StronglySorted_unique_strong
           (λ n1 n2, position_of n1 r ≤ position_of n2 r)).
  - intros x1 x2 H1 H2 H12 H21.
    rewrite Hp in H1. fold reference_names in H1. rewrite <- Hperm in H1.
    apply list_elem_of_fmap in H1 as (a & -> & Ha).
    apply list_elem_of_fmap in H2 as (b & -> & Hb).
    apply list_elem_of_lookup_1 in Ha as [i Hi].
    apply list_elem_of_lookup_1 in Hb as [j Hj].
    rewrite (position_of_lookup r i a Hnd Hi) in H12, H21.
    rewrite (position_of_lookup r j b Hnd Hj) in H12, H21.
    assert (i = j) as -> by lia. congruence.
  - apply StronglySorted_from_lookup. intros i j x y Hij Hx Hy.
    rewrite list_lookup_fmap in Hx, Hy.
    destruct (_ !! i) as [a|] eqn:Ea; [|done].
    destruct (_ !! j) as [b|] eqn:Eb; [|done].
    cbn in Hx, Hy. injection Hx as <-. injection Hy as <-.
    destruct (team_ranking_order self i j a b Hij Ea Eb) as [Hle _].
    rewrite !(mean_position_single self person r) in Hle by done.
    by apply mean_of_single_le.
  - apply StronglySorted_from_lookup. intros i j x y Hij Hx Hy.
    rewrite list_lookup_fmap in Hx, Hy.
    destruct (r !! i) as [a|] eqn:Ea; [|done].
    destruct (r !! j) as [b|] eqn:Eb; [|done].
    cbn in Hx, Hy. injection Hx as <-. injection Hy as <-.
    rewrite (position_of_lookup r i a Hnd Ea).
    rewrite (position_of_lookup r j b Hnd Eb). lia.
  - rewrite Hp. by rewrite Hperm.
Qed.

(** C8. With the single individual ranking [r], a valid permutation of
    the 15 reference names, the team ranking names the reference items in
    the order of [r]; when [r] is made of the reference items themselves,
    the team ranking is [r]. *)
Theorem single_submission_gives_its_order
    (self : MoonSurvival.MoonSurvivalExperiment)
    (person : string) (r : list Item) :
  MoonSurvival.items self = MoonSurvival.OFFICIAL_ITEMS →
  MoonSurvival.individual_rankings self = {[person := r]} →
  name <$> r ≡ₚ reference_names →
  ∃ self', MoonSurvival.calculate_team_ranking self = Ok (self', [])
    ∧ name <$> MoonSurvival.team_ranking self' = name <$> r
    ∧ (∀ it, it ∈ MoonSurvival.team_ranking self' →
             it ∈ MoonSurvival.OFFICIAL_ITEMS)
    ∧ (r ≡ₚ MoonSurvival.OFFICIAL_ITEMS →
       MoonSurvival.team_ranking self' = r).
Proof.
  intros Hitems Hr Hperm. eexists. split.
  { apply calculate_team_ranking_ok. rewrite Hr.
    apply map_non_empty_singleton. }
  cbn [MoonSurvival.team_ranking].
  pose proof (team_ranking_Permutation self) as Hp. rewrite Hitems in Hp.
  pose proof (single_submission_names self person r Hitems Hr Hperm) as Hn.
  split; [done|]. split; [intros it Hin; by rewrite <- Hp|].
  intros Hrp. apply same_names_same_items; [| |done].
  - apply Forall_forall. intros it Hin. by rewrite <- Hp.
  - apply Forall_forall. intros it Hin. by rewrite <- Hrp.
Qed.

Lemma item_score_is_mean_position_witness :
  MoonSurvival.individual_rankings one_short_ranking ≠ ∅
  ∧ mkItem "氧氣瓶" 1 "呼吸" ∈ MoonSurvival.items one_short_ranking
  ∧ ∃ m, MoonSurvival.item_scores one_short_ranking = Ok m
      ∧ m !! "氧氣瓶"
        = Some (mean_of (position_of "氧氣瓶" <$>
                  MoonSurvival.values
                    (MoonSurvival.individual_rankings one_short_ranking)))
      ∧ length (MoonSurvival.values
                  (MoonSurvival.individual_rankings one_short_ranking))
        = size (MoonSurvival.individual_rankings one_short_ranking)
      ∧ (∀ r : list Item,
           "氧氣瓶" ∉ (name <$> r) → position_of "氧氣瓶" r = 0)
      ∧ (∀ r : list Item,
           "氧氣瓶" ∈ (name <$> r) → 1 ≤ position_of "氧氣瓶" r).
Proof.
  assert (MoonSurvival.individual_rankings one_short_ranking ≠ ∅) as Hne
    by apply map_non_empty_singleton.
  assert (mkItem "氧氣瓶" 1 "呼吸" ∈ MoonSurvival.items one_short_ranking)
    as Hin by (apply (bool_decide_unpack _); vm_compute; exact I).
  split; [exact Hne|]. split; [exact Hin|].
  exact (item_score_is_mean_position
           one_short_ranking (mkItem "氧氣瓶" 1 "呼吸") Hne Hin).
Defined.

Lemma team_ranking_is_permutation_witness :
  MoonSurvival.items one_short_ranking = MoonSurvival.OFFICIAL_ITEMS
  ∧ MoonSurvival.individual_rankings one_short_ranking ≠ ∅
  ∧ ∃ self',
      MoonSurvival.calculate_team_ranking one_short_ranking = Ok (self', [])
      ∧ MoonSurvival.team_ranking self' ≡ₚ MoonSurvival.OFFICIAL_ITEMS
      ∧ length (MoonSurvival.team_ranking self') = 15%nat
      ∧ NoDup (MoonSurvival.team_ranking self')
      ∧ (∀ it, it ∈ MoonSurvival.OFFICIAL_ITEMS →
               it ∈ MoonSurvival.team_ranking self').
Proof.
  assert (MoonSurvival.individual_rankings one_short_ranking ≠ ∅) as Hne
    by apply map_non_empty_singleton.
  split; [reflexivity|]. split; [exact Hne|].
  exact (team_ranking_is_permutation one_short_ranking eq_refl Hne).
Defined.

Lemma team_ranking_sorted_by_mean_witness :
  MoonSurvival.items two_close_rankings = MoonSurvival.OFFICIAL_ITEMS
  ∧ MoonSurvival.individual_rankings two_close_rankings ≠ ∅
  ∧ mkItem "水" 2 "補充液體" ∈ MoonSurvival.OFFICIAL_ITEMS
  ∧ mkItem "星圖" 3 "導航" ∈ MoonSurvival.OFFICIAL_ITEMS
  ∧ (mean_position two_close_rankings "水"
     < mean_position two_close_rankings "星圖")%Q
  ∧ before MoonSurvival.OFFICIAL_ITEMS
           (mkItem "氧氣瓶" 1 "呼吸") (mkItem "水" 2 "補充液體")
  ∧ (mean_position two_close_rankings "氧氣瓶"
     == mean_position two_close_rankings "水")%Q
  ∧ ∃ self' m,
      MoonSurvival.calculate_team_ranking two_close_rankings = Ok (self', [])
      ∧ MoonSurvival.item_scores two_close_rankings = Ok m
      ∧ MoonSurvival.team_ranking self' ≡ₚ MoonSurvival.OFFICIAL_ITEMS
      ∧ m !! "水"
        = Some (mean_of (position_of "水" <$>
                  MoonSurvival.values
                    (MoonSurvival.individual_rankings two_close_rankings)))
      ∧ before (MoonSurvival.team_ranking self')
               (mkItem "水" 2 "補充液體") (mkItem "星圖" 3 "導航")
      ∧ before (MoonSurvival.team_ranking self')
               (mkItem "氧氣瓶" 1 "呼吸") (mkItem "水" 2 "補充液體").
Proof.
  assert (MoonSurvival.individual_rankings two_close_rankings ≠ ∅)
    as Hne by apply insert_non_empty.
  assert (mkItem "水" 2 "補充液體" ∈ MoonSurvival.OFFICIAL_ITEMS) as Hwater
    by (apply (bool_decide_unpack _); vm_compute; exact I).
  assert (mkItem "星圖" 3 "導航" ∈ MoonSurvival.OFFICIAL_ITEMS) as Hchart
    by (apply (bool_decide_unpack _); vm_compute; exact I).
  assert (mean_position two_close_rankings "水"
          < mean_position two_close_rankings "星圖")%Q as Hlt
    by (vm_compute; reflexivity).
  assert (before MoonSurvival.OFFICIAL_ITEMS
                 (mkItem "氧氣瓶" 1 "呼吸") (mkItem "水" 2 "補充液體")) as Hbefore
    by (exists 0%nat, 1%nat; split; [reflexivity|split; [reflexivity|lia]]).
  assert (mean_position two_close_rankings "氧氣瓶"
          == mean_position two_close_rankings "水")%Q as Htie
    by (vm_compute; reflexivity).
  split; [reflexivity|]. split; [exact Hne|]. split; [exact Hwater|].
  split; [exact Hchart|]. split; [exact Hlt|]. split; [exact Hbefore|].
  split; [exact Htie|].
  destruct (team_ranking_sorted_by_mean two_close_rankings eq_refl Hne)
    as (self' & m & Hcalc & Hscores & Hperm & Hmean & _ & Hasc & Hties & _).
  exists self', m. split; [exact Hcalc|]. split; [exact Hscores|].
  split; [exact Hperm|]. split; [exact (Hmean _ Hwater)|].
  split; [exact (Hasc _ _ Hwater Hchart Hlt)|exact (Hties _ _ Hbefore Htie)].
Defined.

Lemma single_submission_gives_its_order_witness :
  MoonSurvival.items one_reversed_ranking = MoonSurvival.OFFICIAL_ITEMS
  ∧ MoonSurvival.individual_rankings one_reversed_ranking
    = {["ann" := reverse MoonSurvival.OFFICIAL_ITEMS]}
  ∧ name <$> reverse MoonSurvival.OFFICIAL_ITEMS ≡ₚ reference_names
  ∧ ∃ self',
      MoonSurvival.calculate_team_ranking one_reversed_ranking
      = Ok (self', [])
      ∧ name <$> MoonSurvival.team_ranking self'
        = name <$> reverse MoonSurvival.OFFICIAL_ITEMS
      ∧ (∀ it, it ∈ MoonSurvival.team_ranking self' →
               it ∈ MoonSurvival.OFFICIAL_ITEMS)
      ∧ (reverse MoonSurvival.OFFICIAL_ITEMS ≡ₚ MoonSurvival.OFFICIAL_ITEMS →
         MoonSurvival.team_ranking self' = reverse MoonSurvival.OFFICIAL_ITEMS).
Proof.
  assert (name <$> reverse MoonSurvival.OFFICIAL_ITEMS ≡ₚ reference_names)
    as Hperm.
  { rewrite fmap_reverse. apply reverse_Permutation. }
  split; [reflexivity|]. split; [reflexivity|]. split; [exact Hperm|].
  exact (single_submission_gives_its_order one_reversed_ranking "ann"
           (reverse MoonSurvival.OFFICIAL_ITEMS) eq_refl eq_refl Hperm).
Defined.

(** * More of [app.py] *)

Lemma sum_le_bound (l : list Z) (c : Z) :
  Forall (λ x, x ≤ c) l → sum l ≤ c * len l.
Proof.
  unfold len. induction 1 as [|x l Hx Hl IH];
    rewrite ?sum_nil, ?sum_cons; cbn [length]; lia.
Qed.

Lemma sum_eq_bound (l : list Z) (c : Z) :
  Forall (λ x, x ≤ c) l → sum l = c * len l → Forall (λ x, x = c) l.
Proof.
  unfold len. induction 1 as [|x l Hx Hl IH]; [constructor|].
  rewrite sum_cons. cbn [length]. intros Hs.
  pose proof (sum_le_bound l c Hl) as Hb. unfold len in Hb.
  constructor; [lia|apply IH; lia].
Qed.

Lemma off_map_range (nm : string) (r : Z) :
  App.off_map !! nm = Some r → 0 ≤ r ≤ 14.
Proof.
  intros (it & Hin & _ & <-)%off_map_lookup.
  apply official_item_index in Hin as [? _]. lia.
Qed.

Lemma off_map_known (nm : string) :
  nm ∈ reference_names → is_Some (App.off_map !! nm).
Proof.
  intros (it & -> & Hin)%list_elem_of_fmap. rewrite off_map_item by done.
  by eexists.
Qed.

Lemma contribution_le_penalty (i : Z) (nm : string) :
  0 ≤ i ≤ 14 → App.contribution i nm ≤ 15.
Proof.
  intros Hi. unfold App.contribution.
  destruct (App.off_map !! nm) as [r|] eqn:E.
  - apply off_map_range in E. lia.
  - by rewrite len_OFFICIAL_ITEMS.
Qed.

Lemma contribution_penalty_unknown (i : Z) (nm : string) :
  0 ≤ i ≤ 14 → App.contribution i nm = 15 → nm ∉ reference_names.
Proof.
  intros Hi Hc Hin. apply off_map_known in Hin as [r E].
  unfold App.contribution in Hc. rewrite E in Hc.
  apply off_map_range in E. lia.
Qed.

Lemma sum_all_eq (l : list Z) (c : Z) :
  Forall (λ x, x = c) l → sum l = c * len l.
Proof.
  unfold len. induction 1 as [|x l Hx Hl IH];
    rewrite ?sum_nil, ?sum_cons; cbn [length]; lia.
Qed.

Lemma fmap_enumerate_from {A B} (f : Z → A → B) (l : list A) (k : Z) :
  (λ '(i, x), f i x) <$> enumerate_from k l
  = imap (λ i x, f (k + Z.of_nat i) x) l.
Proof.
  apply list_eq. intros i.
  rewrite list_lookup_fmap, enumerate_from_lookup, list_lookup_imap.
  by destruct (l !! i).
Qed.

Lemma imap_const_fst {A} (l : list A) (k : Z) :
  imap (λ i _, k + Z.of_nat i) l = seqZ k (len l).
Proof.
  apply list_eq. intros i. rewrite list_lookup_imap. unfold len.
  destruct (l !! i) as [x|] eqn:E; cbn.
  - symmetry. apply lookup_seqZ_lt. apply lookup_lt_Some in E. lia.
  - symmetry. apply lookup_seqZ_ge. apply lookup_ge_None in E. lia.
Qed.

Lemma imap_snd {A B} (g : A → B) (l : list A) :
  imap (λ _ x, g x) l = g <$> l.
Proof.
  apply list_eq. intros i. by rewrite list_lookup_imap, list_lookup_fmap.
Qed.

Lemma off_pos_map_off_map (nm : string) :
  App.off_pos_map !! nm = (λ r, r + 1) <$> App.off_map !! nm.
Proof.
  destruct (decide (nm ∈ reference_names)) as [Hin|Hnot].
  - apply list_elem_of_fmap in Hin as (it & -> & Hin).
    rewrite off_pos_map_item, off_map_item by done. cbn. f_equal. lia.
  - by rewrite off_pos_map_unknown, off_map_unknown.
Qed.

Lemma diff_or_penalty_contribution (i : Z) (nm : string) :
  diff_or_penalty (App.per_item_of i nm) = App.contribution i nm.
Proof.
  unfold diff_or_penalty, App.per_item_of, App.contribution.
  cbn [App.pi_diff]. rewrite off_pos_map_off_map.
  destruct (App.off_map !! nm) as [r|]; cbn; [|done]. f_equal. lia.
Qed.

(** X1. [evaluate] answers the error "invalid order" exactly for the
    orders whose length is not 15; for any other order the body echoes
    the order: the submitted list and the breakdown both carry the names
    as sent, numbered 1 to 15, beside the score and the reference table. *)
Theorem evaluate_echoes_order (order : list string) :
  (length order ≠ 15%nat → App.evaluate order = App.Error400 "invalid order")
  ∧ (length order = 15%nat →
     ∃ body, App.evaluate order = App.Ok200 body
       ∧ App.ev_score body = App.calculate_score order
       ∧ App.ev_official body = App.OFFICIAL_ITEMS
       ∧ App.sub_name <$> App.ev_submitted body = order
       ∧ App.sub_pos <$> App.ev_submitted body = seqZ 1 15
       ∧ App.pi_name <$> App.ev_per_item body = order
       ∧ App.pi_submitted_rank <$> App.ev_per_item body = seqZ 1 15).
Proof.
  unfold App.evaluate, enumerate. split; intros Hlen.
  - rewrite decide_True; [done|]. rewrite len_OFFICIAL_ITEMS. unfold len. lia.
  - rewrite decide_False
      by (rewrite len_OFFICIAL_ITEMS; unfold len; rewrite Hlen; lia).
    eexists. split; [reflexivity|]. cbn.
    rewrite !fmap_enumerate_from, !fmap_imap.
    assert (len order = 15) as Hl by (unfold len; by rewrite Hlen).
    repeat split.
    + rewrite <- (list_fmap_id order) at 2. by rewrite <- imap_snd.
    + rewrite <- Hl, <- imap_const_fst. apply imap_ext.
      intros i x _. cbn. lia.
    + rewrite <- (list_fmap_id order) at 2. by rewrite <- imap_snd.
    + rewrite <- Hl, <- imap_const_fst. apply imap_ext.
      intros i x _. cbn. lia.
Qed.

Lemma evaluate_echoes_order_witness :
  length ["X"; "水"] ≠ 15%nat
  ∧ App.evaluate ["X"; "水"] = App.Error400 "invalid order"
  ∧ length reference_names = 15%nat
  ∧ ∃ body, App.evaluate reference_names = App.Ok200 body
      ∧ App.ev_score body = App.calculate_score reference_names
      ∧ App.ev_official body = App.OFFICIAL_ITEMS
      ∧ App.sub_name <$> App.ev_submitted body = reference_names
      ∧ App.sub_pos <$> App.ev_submitted body = seqZ 1 15
      ∧ App.pi_name <$> App.ev_per_item body = reference_names
      ∧ App.pi_submitted_rank <$> App.ev_per_item body = seqZ 1 15.
Proof.
  assert (length ["X"; "水"] ≠ 15%nat) as Hshort by (cbn; lia).
  split; [exact Hshort|].
  split; [exact (proj1 (evaluate_echoes_order ["X"; "水"]) Hshort)|].
  split; [reflexivity|].
  exact (proj2 (evaluate_echoes_order reference_names) eq_refl).
Defined.

(** X2. In the body [evaluate] answers, the score is the sum over the
    breakdown of the differences, an entry without a difference (a name
    that is no reference name) counting for 15. *)
Theorem evaluate_score_is_sum_of_diffs (order : list string)
    (body : App.evaluation) :
  App.evaluate order = App.Ok200 body →
  App.ev_score body = sum (diff_or_penalty <$> App.ev_per_item body).
Proof.
  unfold App.evaluate, enumerate.
  destruct (decide (len order ≠ len App.OFFICIAL_ITEMS)); [done|].
  intros [= <-]. cbn [App.ev_score App.ev_per_item].
  rewrite calculate_score_sum, fmap_enumerate_from, fmap_imap.
  f_equal. apply imap_ext. intros i nm _. cbn.
  by rewrite diff_or_penalty_contribution.
Qed.

Lemma evaluate_score_is_sum_of_diffs_witness :
  ∃ body, App.evaluate ("X" :: drop 1 reference_names) = App.Ok200 body
    ∧ App.ev_score body = sum (diff_or_penalty <$> App.ev_per_item body).
Proof.
  eexists. split; [reflexivity|].
  apply (evaluate_score_is_sum_of_diffs ("X" :: drop 1 reference_names)).
  reflexivity.
Defined.

Lemma contributions_in_range (order : list string) :
  (length order ≤ 15)%nat →
  Forall (λ x, x ≤ 15)
         (imap (λ i nm, App.contribution (Z.of_nat i) nm) order).
Proof.
  intros Hlen. apply Forall_lookup. intros i x.
  rewrite list_lookup_imap. destruct (order !! i) as [nm|] eqn:E; [|done].
  cbn. intros [= <-]. apply contribution_le_penalty.
  apply lookup_lt_Some in E. lia.
Qed.

(** X3. An order of at most 15 names scores between 0 and 15 times its
    length, and reaches that upper bound exactly when none of its names
    is a reference name; an order [evaluate] accepts thus scores at most
    225. *)
Theorem score_bounds (order : list string) :
  (length order ≤ 15)%nat →
  0 ≤ App.calculate_score order ≤ 15 * len order
  ∧ (App.calculate_score order = 15 * len order ↔
     Forall (λ nm, nm ∉ reference_names) order).
Proof.
  intros Hlen. pose proof (contributions_in_range order Hlen) as Hr.
  assert (len (imap (λ i nm, App.contribution (Z.of_nat i) nm) order)
          = len order) as Hl by (unfold len; by rewrite length_imap).
  split; [split; [apply calculate_score_nonneg|]|].
  - rewrite calculate_score_sum, <- Hl. by apply sum_le_bound.
  - rewrite calculate_score_sum, <- Hl. split.
    + intros Hs. apply sum_eq_bound in Hs; [|done].
      apply Forall_lookup. intros i nm Hi.
      apply (contribution_penalty_unknown (Z.of_nat i)).
      * apply lookup_lt_Some in Hi. lia.
      * rewrite Forall_lookup in Hs. apply (Hs i).
        by rewrite list_lookup_imap, Hi.
    + intros Hu. apply sum_all_eq. apply Forall_lookup. intros i x.
      rewrite list_lookup_imap. destruct (order !! i) as [nm|] eqn:E; [|done].
      cbn. intros [= <-]. unfold App.contribution.
      rewrite off_map_unknown; [done|].
      rewrite Forall_lookup in Hu. by apply (Hu i).
Qed.

Lemma score_bounds_witness :
  (length (replicate 15 "X") ≤ 15)%nat
  ∧ 0 ≤ App.calculate_score (replicate 15 "X") ≤ 15 * len (replicate 15 "X")
  ∧ (App.calculate_score (replicate 15 "X") = 15 * len (replicate 15 "X") ↔
     Forall (λ nm, nm ∉ reference_names) (replicate 15 "X")).
Proof.
  assert (length (replicate 15 "X") ≤ 15)%nat as Hlen by (cbn; lia).
  split; [exact Hlen|]. exact (score_bounds (replicate 15 "X") Hlen).
Defined.

(** X4. At each of the positions 0 to 14 a name that is no reference
    name adds strictly more to the score than any reference name does
    there. From position 15 on this is no longer so: the first reference
    name adds at least as much as an unknown name. *)
Theorem unknown_name_costs_most :
  (∀ (i : Z) (it : Item) (nm : string),
     0 ≤ i < 15 → it ∈ App.OFFICIAL_ITEMS → nm ∉ reference_names →
     App.contribution i (name it) < App.contribution i nm)
  ∧ (∀ (i : Z) (nm : string),
       15 ≤ i → nm ∉ reference_names →
       App.contribution i nm ≤ App.contribution i "氧氣瓶").
Proof.
  split.
  - intros i it nm Hi Hin Hnot. unfold App.contribution.
    rewrite (off_map_item it Hin), (off_map_unknown nm Hnot).
    apply official_item_index in Hin as [? _].
    rewrite len_OFFICIAL_ITEMS. lia.
  - intros i nm Hi Hnot. unfold App.contribution.
    rewrite (off_map_unknown nm Hnot).
    replace (App.off_map !! "氧氣瓶") with (Some 0)
      by (vm_compute; reflexivity).
    rewrite len_OFFICIAL_ITEMS. lia.
Qed.

Lemma unknown_name_costs_most_witness :
  App.contribution 14 (name (mkItem "氧氣瓶" 1 "呼吸"))
  < App.contribution 14 "X"
  ∧ App.contribution 15 "X" ≤ App.contribution 15 "氧氣瓶".
Proof.
  destruct unknown_name_costs_most as [Hin Hout].
  assert ("X" ∉ reference_names) as HX
    by (apply (bool_decide_unpack _); vm_compute; exact I).
  split.
  - apply (Hin 14 (mkItem "氧氣瓶" 1 "呼吸") "X"); [lia| |exact HX].
    apply (bool_decide_unpack _). vm_compute. exact I.
  - apply (Hout 15 "X"); [lia|exact HX].
Defined.

Lemma contributions_parity (l : list string) (k : Z) :
  Forall (λ nm, nm ∈ reference_names) l →
  (2 | sum (imap (λ i nm, App.contribution (k + Z.of_nat i) nm) l)
       + sum (imap (λ i _, k + Z.of_nat i) l) - sum (rank0 <$> l)).
Proof.
  intros Hl. revert k. induction Hl as [|nm l Hnm Hl IH]; intros k.
  - exists 0. reflexivity.
  - rewrite !imap_cons, fmap_cons, !sum_cons.
    replace (k + Z.of_nat 0) with k by lia.
    rewrite (imap_ext _ (λ i nm, App.contribution (k + 1 + Z.of_nat i) nm))
      by (intros i y _; cbn; f_equal; lia).
    rewrite (imap_ext (λ i _, k + Z.of_nat (S i))
                      (λ i _, k + 1 + Z.of_nat i))
      by (intros i y _; cbn; lia).
    destruct (IH (k + 1)) as [c Hc].
    apply off_map_known in Hnm as [r E].
    unfold App.contribution at 1. unfold rank0 at 1. rewrite E.
    exists (c + Z.max 0 (k - r)). lia.
Qed.

(** X5. The score of a permutation of the reference names is even. *)
Theorem score_of_permutation_even (p : list string) :
  p ≡ₚ reference_names → (2 | App.calculate_score p).
Proof.
  intros Hp. rewrite calculate_score_sum.
  assert (Forall (λ nm, nm ∈ reference_names) p) as Hall
    by (apply Forall_forall; intros nm Hin; by rewrite <- Hp).
  destruct (contributions_parity p 0 Hall) as [c Hc]. cbn in Hc.
  rewrite (imap_const_fst p 0) in Hc.
  rewrite (sum_Permutation (rank0 <$> p) (rank0 <$> reference_names))
    in Hc by (by rewrite Hp).
  unfold len in Hc. rewrite (Permutation_length Hp) in Hc.
  replace (sum (seqZ 0 (Z.of_nat (length reference_names)))) with 105 in Hc
    by (vm_compute; reflexivity).
  replace (sum (rank0 <$> reference_names)) with 105 in Hc
    by (vm_compute; reflexivity).
  exists c. change (λ (i : nat) (nm : string),
              App.contribution (0 + Z.of_nat i) nm)
    with (λ (i : nat) (nm : string), App.contribution (Z.of_nat i) nm) in Hc.
  lia.
Qed.

Lemma score_of_permutation_even_witness :
  reverse reference_names ≡ₚ reference_names
  ∧ (2 | App.calculate_score (reverse reference_names)).
Proof.
  assert (reverse reference_names ≡ₚ reference_names) as Hp
    by apply reverse_Permutation.
  split; [exact Hp|].
  exact (score_of_permutation_even (reverse reference_names) Hp).
Defined.

(** * More of [moon-survival.py]: accuracy and aggregation *)

(** X6. The accuracy of a ranking that is a permutation of the
    reference items lies between 0 and 112, and is 0 exactly for the
    reference order. *)
Theorem accuracy_of_valid_ranking (ranking : list Item) :
  ranking ≡ₚ MoonSurvival.OFFICIAL_ITEMS →
  0 ≤ MoonSurvival.calculate_accuracy ranking ≤ 112
  ∧ (MoonSurvival.calculate_accuracy ranking = 0 ↔
     ranking = MoonSurvival.OFFICIAL_ITEMS).
Proof.
  intros Hp.
  assert (∀ it, it ∈ ranking → it ∈ App.OFFICIAL_ITEMS) as Hall
    by (intros it Hin; rewrite <- same_table; by rewrite <- Hp).
  rewrite (accuracy_is_score ranking Hall).
  assert (name <$> ranking ≡ₚ reference_names) as Hn
    by (unfold reference_names; rewrite <- same_table; by rewrite Hp).
  split; [split; [apply calculate_score_nonneg|]|].
  - by apply score_of_permutation_le.
  - split.
    + intros Hz. apply score_zero_reference in Hz; [|by rewrite Hn].
      apply same_names_same_items; [by apply Forall_forall| |done].
      apply Forall_forall. intros it Hin. by rewrite <- same_table.
    + intros ->. vm_compute. reflexivity.
Qed.

Lemma accuracy_of_valid_ranking_witness :
  reverse MoonSurvival.OFFICIAL_ITEMS ≡ₚ MoonSurvival.OFFICIAL_ITEMS
  ∧ 0 ≤ MoonSurvival.calculate_accuracy (reverse MoonSurvival.OFFICIAL_ITEMS)
      ≤ 112
  ∧ (MoonSurvival.calculate_accuracy (reverse MoonSurvival.OFFICIAL_ITEMS) = 0
     ↔ reverse MoonSurvival.OFFICIAL_ITEMS = MoonSurvival.OFFICIAL_ITEMS).
Proof.
  assert (reverse MoonSurvival.OFFICIAL_ITEMS ≡ₚ MoonSurvival.OFFICIAL_ITEMS)
    as Hp by apply reverse_Permutation.
  split; [exact Hp|].
  exact (accuracy_of_valid_ranking (reverse MoonSurvival.OFFICIAL_ITEMS) Hp).
Defined.

Lemma sum_seqZ (n : nat) :
  2 * sum (seqZ 0 (Z.of_nat n)) = Z.of_nat n * (Z.of_nat n - 1).
Proof.
  induction n as [|n IH]; [done|].
  replace (Z.of_nat (S n)) with (Z.of_nat n + 1) by lia.
  rewrite seqZ_app by lia. rewrite sum_app.
  replace (seqZ (0 + Z.of_nat n) 1) with [Z.of_nat n] by done.
  rewrite sum_cons, sum_nil. lia.
Qed.

(** X7. The figure [display_results] prints as the worst possible score
    is n(n-1)/2 for n items, 105 for the reference table; it is no upper
    bound, the reversed reference order having an accuracy above it. *)
Theorem printed_worst_score_is_exceeded
    (self : MoonSurvival.MoonSurvivalExperiment) :
  2 * MoonSurvival.worst_possible_score self
  = len (MoonSurvival.items self) * (len (MoonSurvival.items self) - 1)
  ∧ (MoonSurvival.items self = MoonSurvival.OFFICIAL_ITEMS →
     MoonSurvival.worst_possible_score self = 105
     ∧ ∃ ranking, ranking ≡ₚ MoonSurvival.items self
         ∧ MoonSurvival.worst_possible_score self
           < MoonSurvival.calculate_accuracy ranking).
Proof.
  split; [apply sum_seqZ|]. unfold MoonSurvival.worst_possible_score.
  intros ->. split; [by vm_compute|].
  exists (reverse MoonSurvival.OFFICIAL_ITEMS).
  split; [apply reverse_Permutation|by vm_compute].
Qed.

Lemma printed_worst_score_is_exceeded_witness :
  2 * MoonSurvival.worst_possible_score MoonSurvival.init
  = len (MoonSurvival.items MoonSurvival.init)
    * (len (MoonSurvival.items MoonSurvival.init) - 1)
  ∧ MoonSurvival.items MoonSurvival.init = MoonSurvival.OFFICIAL_ITEMS
  ∧ MoonSurvival.worst_possible_score MoonSurvival.init = 105
  ∧ ∃ ranking, ranking ≡ₚ MoonSurvival.items MoonSurvival.init
      ∧ MoonSurvival.worst_possible_score MoonSurvival.init
        < MoonSurvival.calculate_accuracy ranking.
Proof.
  destruct (printed_worst_score_is_exceeded MoonSurvival.init) as [Hn Hex].
  split; [exact Hn|]. split; [reflexivity|]. exact (Hex eq_refl).
Defined.

Lemma position_of_nonneg (nm : string) (r : list Item) : 0 ≤ position_of nm r.
Proof.
  unfold position_of. destruct (list_find _ r) as [[i y]|]; lia.
Qed.

Lemma elem_of_values {V} (d : gmap string V) (v : V) :
  v ∈ MoonSurvival.values d ↔ ∃ k, d !! k = Some v.
Proof.
  unfold MoonSurvival.values. rewrite list_elem_of_fmap. split.
  - intros ([k v'] & -> & Hin). exists k. by apply elem_of_map_to_list.
  - intros [k Hk]. exists (k, v). split; [done|].
    by apply elem_of_map_to_list.
Qed.

Lemma sum_fmap_le {A} (f g : A → Z) (l : list A) :
  (∀ x, x ∈ l → f x ≤ g x) → sum (f <$> l) ≤ sum (g <$> l).
Proof.
  induction l as [|x l IH]; intros H; [done|].
  rewrite !fmap_cons, !sum_cons.
  pose proof (H x ltac:(left)). assert (∀ y, y ∈ l → f y ≤ g y) as H'
    by (intros y Hy; apply H; by right).
  specialize (IH H'). lia.
Qed.

Lemma sum_fmap_lt {A} (f g : A → Z) (l : list A) (x0 : A) :
  x0 ∈ l → f x0 < g x0 → (∀ x, x ∈ l → f x ≤ g x) →
  sum (f <$> l) < sum (g <$> l).
Proof.
  induction l as [|x l IH]; intros Hin Hlt H; [by apply elem_of_nil in Hin|].
  rewrite !fmap_cons, !sum_cons.
  pose proof (H x ltac:(left)). assert (∀ y, y ∈ l → f y ≤ g y) as H'
    by (intros y Hy; apply H; by right).
  apply elem_of_cons in Hin as [->|Hin].
  - pose proof (sum_fmap_le f g l H'). lia.
  - specialize (IH Hin Hlt H'). lia.
Qed.

Lemma mean_of_lt (l1 l2 : list Z) :
  length l1 = length l2 → sum l1 < sum l2 → (mean_of l1 < mean_of l2)%Q.
Proof.
  intros Hlen Hs. unfold mean_of. rewrite <- Hlen.
  assert (length l1 ≠ 0%nat) as Hne.
  { intros H0. rewrite H0 in Hlen. by destruct l1, l2. }
  revert Hs. generalize (sum l1) (sum l2). intros s1 s2 Hs.
  destruct (Z.of_nat (length l1)) as [|p|p] eqn:E; [lia| |lia].
  unfold Qlt, Qdiv, Qmult, Qinv, inject_Z. cbn. nia.
Qed.

Lemma lower_mean_stands_before (self : MoonSurvival.MoonSurvivalExperiment)
    (a b : Item) :
  a ∈ MoonSurvival.items self → b ∈ MoonSurvival.items self →
  (mean_position self (name a) < mean_position self (name b))%Q →
  before (stable_sort Qle_bool (by_mean_position self)).*2 a b.
Proof.
  intros Ha Hb Hlt. pose proof (team_ranking_Permutation self) as Hp.
  rewrite <- Hp in Ha, Hb.
  apply list_elem_of_lookup_1 in Ha as [i Hi].
  apply list_elem_of_lookup_1 in Hb as [j Hj].
  destruct (lt_eq_lt_dec i j) as [[Hij| ->]|Hji].
  - by exists i, j.
  - rewrite Hi in Hj. injection Hj as ->. by apply Qlt_irrefl in Hlt.
  - destruct (team_ranking_order self j i b a Hji Hj Hi) as [Hle _].
    by apply Qlt_not_le in Hlt.
Qed.

(** X8. When every individual ranking gives an item a lower position
    than another item (an omitted item counting as position 0), the team
    ranking places it before the other. *)
Theorem unanimous_preference_is_kept
    (self : MoonSurvival.MoonSurvivalExperiment) (a b : Item) :
  MoonSurvival.individual_rankings self ≠ ∅ →
  a ∈ MoonSurvival.items self → b ∈ MoonSurvival.items self →
  (∀ person r, MoonSurvival.individual_rankings self !! person = Some r →
               position_of (name a) r < position_of (name b) r) →
  ∃ self', MoonSurvival.calculate_team_ranking self = Ok (self', [])
    ∧ before (MoonSurvival.team_ranking self') a b.
Proof.
  intros Hne Ha Hb Hall. eexists.
  split; [by apply calculate_team_ranking_ok|].
  cbn [MoonSurvival.team_ranking].
  apply lower_mean_stands_before; [done..|].
  unfold mean_position. apply mean_of_lt; [by rewrite !length_fmap|].
  destruct (MoonSurvival.values (MoonSurvival.individual_rankings self))
    as [|r0 rs] eqn:E.
  { apply values_nonempty in Hne. by rewrite E in Hne. }
  assert (∀ r, r ∈ r0 :: rs →
               position_of (name a) r < position_of (name b) r) as Hlt.
  { intros r Hr. rewrite <- E in Hr. apply elem_of_values in Hr as [k Hk].
    by eapply Hall. }
  apply (sum_fmap_lt _ _ _ r0); [by left|apply Hlt; by left|].
  intros r Hr. apply Z.lt_le_incl. by apply Hlt.
Qed.

(** X9. An item that every individual ranking omits is placed, in the
    team ranking, before every item that some individual ranking
    holds. *)
Theorem omitted_item_is_ranked_ahead
    (self : MoonSurvival.MoonSurvivalExperiment) (a b : Item) :
  a ∈ MoonSurvival.items self → b ∈ MoonSurvival.items self →
  (∀ person r, MoonSurvival.individual_rankings self !! person = Some r →
               name a ∉ (name <$> r)) →
  (∃ person r, MoonSurvival.individual_rankings self !! person = Some r
               ∧ name b ∈ (name <$> r)) →
  ∃ self', MoonSurvival.calculate_team_ranking self = Ok (self', [])
    ∧ before (MoonSurvival.team_ranking self') a b.
Proof.
  intros Ha Hb Hnone (person & r0 & Hr0 & Hin0).
  assert (MoonSurvival.individual_rankings self ≠ ∅) as Hne.
  { intros He. rewrite He in Hr0. by rewrite lookup_empty in Hr0. }
  eexists. split; [by apply calculate_team_ranking_ok|].
  cbn [MoonSurvival.team_ranking].
  apply lower_mean_stands_before; [done..|].
  unfold mean_position. apply mean_of_lt; [by rewrite !length_fmap|].
  assert (∀ r, r ∈ MoonSurvival.values (MoonSurvival.individual_rankings self)
               → position_of (name a) r = 0) as Hzero.
  { intros r [k Hk]%elem_of_values. apply position_of_absent.
    by eapply Hnone. }
  apply (sum_fmap_lt _ _ _ r0).
  - apply elem_of_values. by exists person.
  - rewrite Hzero by (apply elem_of_values; by exists person).
    pose proof (position_of_present _ _ Hin0). lia.
  - intros r Hr. rewrite (Hzero r Hr). apply position_of_nonneg.
Qed.

(** X10. Computing the team ranking again changes nothing: run on the
    experiment it returned, [calculate_team_ranking] returns that
    experiment again. With at least one individual ranking its result is
    also the same for every experiment with the same items and the same
    individual rankings, whatever team ranking was stored before. *)
Theorem calculate_team_ranking_idempotent
    (self self' : MoonSurvival.MoonSurvivalExperiment) (out : list string) :
  MoonSurvival.calculate_team_ranking self = Ok (self', out) →
  MoonSurvival.calculate_team_ranking self' = Ok (self', out)
  ∧ (MoonSurvival.individual_rankings self ≠ ∅ →
     ∀ other : MoonSurvival.MoonSurvivalExperiment,
       MoonSurvival.items other = MoonSurvival.items self →
       MoonSurvival.individual_rankings other
       = MoonSurvival.individual_rankings self →
       MoonSurvival.calculate_team_ranking other = Ok (self', out)).
Proof.
  destruct (decide (MoonSurvival.individual_rankings self = ∅)) as [He|Hne].
  - unfold MoonSurvival.calculate_team_ranking at 1.
    rewrite decide_True by done. intros [= <- <-]. split; [|done].
    unfold MoonSurvival.calculate_team_ranking. by rewrite decide_True.
  - rewrite (calculate_team_ranking_ok self Hne). intros [= <- <-]. split.
    + by rewrite calculate_team_ranking_ok.
    + intros _ other Hitems Hrank.
      rewrite calculate_team_ranking_ok by (by rewrite Hrank).
      unfold by_mean_position, mean_position. by rewrite Hitems, Hrank.
Qed.

Lemma unanimous_preference_is_kept_witness :
  MoonSurvival.individual_rankings one_reversed_ranking ≠ ∅
  ∧ mkItem "磁羅盤" 15 "導航（不太有效）"
      ∈ MoonSurvival.items one_reversed_ranking
  ∧ mkItem "氧氣瓶" 1 "呼吸" ∈ MoonSurvival.items one_reversed_ranking
  ∧ ∃ self',
      MoonSurvival.calculate_team_ranking one_reversed_ranking
      = Ok (self', [])
      ∧ before (MoonSurvival.team_ranking self')
               (mkItem "磁羅盤" 15 "導航（不太有效）")
               (mkItem "氧氣瓶" 1 "呼吸").
Proof.
  assert (MoonSurvival.individual_rankings one_reversed_ranking ≠ ∅) as Hne
    by apply map_non_empty_singleton.
  assert (mkItem "磁羅盤" 15 "導航（不太有效）"
            ∈ MoonSurvival.items one_reversed_ranking) as Ha
    by (apply (bool_decide_unpack _); vm_compute; exact I).
  assert (mkItem "氧氣瓶" 1 "呼吸" ∈ MoonSurvival.items one_reversed_ranking)
    as Hb by (apply (bool_decide_unpack _); vm_compute; exact I).
  split; [exact Hne|]. split; [exact Ha|]. split; [exact Hb|].
  apply (unanimous_preference_is_kept one_reversed_ranking _ _ Hne Ha Hb).
  intros person r Hr. unfold one_reversed_ranking in Hr.
  cbn [MoonSurvival.individual_rankings] in Hr.
  apply lookup_singleton_Some in Hr as [_ <-]. vm_compute. reflexivity.
Defined.

Lemma omitted_item_is_ranked_ahead_witness :
  mkItem "氧氣瓶" 1 "呼吸" ∈ MoonSurvival.items one_short_ranking
  ∧ mkItem "水" 2 "補充液體" ∈ MoonSurvival.items one_short_ranking
  ∧ ∃ self',
      MoonSurvival.calculate_team_ranking one_short_ranking = Ok (self', [])
      ∧ before (MoonSurvival.team_ranking self')
               (mkItem "氧氣瓶" 1 "呼吸") (mkItem "水" 2 "補充液體").
Proof.
  assert (mkItem "氧氣瓶" 1 "呼吸" ∈ MoonSurvival.items one_short_ranking)
    as Ha by (apply (bool_decide_unpack _); vm_compute; exact I).
  assert (mkItem "水" 2 "補充液體" ∈ MoonSurvival.items one_short_ranking)
    as Hb by (apply (bool_decide_unpack _); vm_compute; exact I).
  split; [exact Ha|]. split; [exact Hb|].
  apply (omitted_item_is_ranked_ahead one_short_ranking _ _ Ha Hb).
  - intros person r Hr. unfold one_short_ranking in Hr.
    cbn [MoonSurvival.individual_rankings] in Hr.
    apply lookup_singleton_Some in Hr as [_ <-].
    apply (bool_decide_unpack _). vm_compute. exact I.
  - exists "ann", (reverse (drop 1 MoonSurvival.OFFICIAL_ITEMS)).
    split; [apply lookup_singleton_eq|].
    apply (bool_decide_unpack _). vm_compute. exact I.
Defined.

Lemma calculate_team_ranking_idempotent_witness :
  MoonSurvival.individual_rankings two_opposite_rankings ≠ ∅
  ∧ MoonSurvival.items two_opposite_rankings_ranked
    = MoonSurvival.items two_opposite_rankings
  ∧ MoonSurvival.individual_rankings two_opposite_rankings_ranked
    = MoonSurvival.individual_rankings two_opposite_rankings
  ∧ ∃ self' out,
      MoonSurvival.calculate_team_ranking two_opposite_rankings
      = Ok (self', out)
      ∧ MoonSurvival.calculate_team_ranking self' = Ok (self', out)
      ∧ MoonSurvival.calculate_team_ranking two_opposite_rankings_ranked
        = Ok (self', out).
Proof.
  assert (MoonSurvival.individual_rankings two_opposite_rankings ≠ ∅)
    as Hne by apply insert_non_empty.
  split; [exact Hne|]. split; [reflexivity|]. split; [reflexivity|].
  eexists _, _. split; [by apply calculate_team_ranking_ok|].
  destruct (calculate_team_ranking_idempotent two_opposite_rankings _ _
              (calculate_team_ranking_ok two_opposite_rankings Hne))
    as [Hagain Hother].
  split; [exact Hagain|].
  exact (Hother Hne two_opposite_rankings_ranked eq_refl eq_refl).
Defined.

Lemma unanimous_names (self : MoonSurvival.MoonSurvivalExperiment)
    (r : list Item) :
  MoonSurvival.items self = MoonSurvival.OFFICIAL_ITEMS →
  MoonSurvival.individual_rankings self ≠ ∅ →
  (∀ person r', MoonSurvival.individual_rankings self !! person = Some r' →
                r' = r) →
  name <$> r ≡ₚ reference_names →
  name <$> (stable_sort Qle_bool (by_mean_position self)).*2 = name <$> r.
Proof.
  intros Hitems Hne Hsame Hperm.
  assert (NoDup (name <$> r)) as Hnd
    by (rewrite Hperm; apply NoDup_reference_names).
  pose proof (team_ranking_Permutation self) as Hp. rewrite Hitems in Hp.
  assert (∀ n1 n2, (mean_position self n1 <= mean_position self n2)%Q →
                   position_of n1 r ≤ position_of n2 r) as Hmean.
  { intros n1 n2 Hle.
    destruct (Z_lt_le_dec (position_of n2 r) (position_of n1 r))
      as [Hlt|]; [|done].
    apply Qle_not_lt in Hle. destruct Hle. unfold mean_position.
    apply mean_of_lt; [by rewrite !length_fmap|].
    destruct (MoonSurvival.values (MoonSurvival.individual_rankings self))
      as [|r0 rs] eqn:E.
    { apply values_nonempty in Hne. by rewrite E in Hne. }
    assert (∀ r', r' ∈ r0 :: rs → r' = r) as Hall.
    { intros r' Hr'. rewrite <- E in Hr'.
      apply elem_of_values in Hr' as [k Hk]. by eapply Hsame. }
    apply (sum_fmap_lt _ _ _ r0); [by left| |].
    - by rewrite (Hall r0) by left.
    - intros r' Hr'. rewrite (Hall r' Hr'). lia. }
  apply (StronglySorted_unique_strong
           (λ n1 n2, position_of n1 r ≤ position_of n2 r)).
  - intros x1 x2 H1 H2 H12 H21.
    rewrite Hp in H1. fold reference_names in H1. rewrite <- Hperm in H1.
    apply list_elem_of_fmap in H1 as (a & -> & Ha).
    apply list_elem_of_fmap in H2 as (b & -> & Hb).
    apply list_elem_of_lookup_1 in Ha as [i Hi].
    apply list_elem_of_lookup_1 in Hb as [j Hj].
    rewrite (position_of_lookup r i a Hnd Hi) in H12, H21.
    rewrite (position_of_lookup r j b Hnd Hj) in H12, H21.
    assert (i = j) as -> by lia. congruence.
  - apply StronglySorted_from_lookup. intros i j x y Hij Hx Hy.
    rewrite list_lookup_fmap in Hx, Hy.
    destruct (_ !! i) as [a|] eqn:Ea; [|done].
    destruct (_ !! j) as [b|] eqn:Eb; [|done].
    cbn in Hx, Hy. injection Hx as <-. injection Hy as <-.
    destruct (team_ranking_order self i j a b Hij Ea Eb) as [Hle _].
    by apply Hmean.
  - apply StronglySorted_from_lookup. intros i j x y Hij Hx Hy.
    rewrite list_lookup_fmap in Hx, Hy.
    destruct (r !! i) as [a|] eqn:Ea; [|done].
    destruct (r !! j) as [b|] eqn:Eb; [|done].
    cbn in Hx, Hy. injection Hx as <-. injection Hy as <-.
    rewrite (position_of_lookup r i a Hnd Ea).
    rewrite (position_of_lookup r j b Hnd Eb). lia.
  - rewrite Hp. by rewrite Hperm.
Qed.

(** X11. When all the individual rankings are one and the same ranking,
    a permutation of the 15 reference names, the team ranking names the
    items in the order of that ranking, however many people gave it. *)
Theorem unanimous_ranking_is_team_ranking
    (self : MoonSurvival.MoonSurvivalExperiment) (r : list Item) :
  MoonSurvival.items self = MoonSurvival.OFFICIAL_ITEMS →
  MoonSurvival.individual_rankings self ≠ ∅ →
  (∀ person r', MoonSurvival.individual_rankings self !! person = Some r' →
                r' = r) →
  name <$> r ≡ₚ reference_names →
  ∃ self', MoonSurvival.calculate_team_ranking self = Ok (self', [])
    ∧ name <$> MoonSurvival.team_ranking self' = name <$> r.
Proof.
  intros Hitems Hne Hsame Hperm. eexists.
  split; [by apply calculate_team_ranking_ok|].
  cbn [MoonSurvival.team_ranking]. by apply unanimous_names.
Qed.

Lemma unanimous_ranking_is_team_ranking_witness :
  MoonSurvival.items two_same_rankings = MoonSurvival.OFFICIAL_ITEMS
  ∧ MoonSurvival.individual_rankings two_same_rankings ≠ ∅
  ∧ name <$> reverse MoonSurvival.OFFICIAL_ITEMS ≡ₚ reference_names
  ∧ ∃ self',
      MoonSurvival.calculate_team_ranking two_same_rankings = Ok (self', [])
      ∧ name <$> MoonSurvival.team_ranking self'
        = name <$> reverse MoonSurvival.OFFICIAL_ITEMS.
Proof.
  assert (MoonSurvival.individual_rankings two_same_rankings ≠ ∅) as Hne
    by apply insert_non_empty.
  assert (name <$> reverse MoonSurvival.OFFICIAL_ITEMS ≡ₚ reference_names)
    as Hperm by (rewrite fmap_reverse; apply reverse_Permutation).
  split; [reflexivity|]. split; [exact Hne|]. split; [exact Hperm|].
  apply (unanimous_ranking_is_team_ranking two_same_rankings
           (reverse MoonSurvival.OFFICIAL_ITEMS) eq_refl Hne); [|exact Hperm].
  intros person r' Hr. unfold two_same_rankings in Hr.
  cbn [MoonSurvival.individual_rankings] in Hr.
  apply lookup_insert_Some in Hr as [[_ <-]|[_ Hr]]; [done|].
  by apply lookup_singleton_Some in Hr as [_ <-].
Defined.

(** * The console of [moon-survival.py] *)

Lemma StronglySorted_seqZ (m n : Z) : StronglySorted Z.le (seqZ m n).
Proof.
  apply StronglySorted_from_lookup. intros i j x y Hij Hx Hy.
  apply lookup_seqZ in Hx as [-> _]. apply lookup_seqZ in Hy as [-> _]. lia.
Qed.

Lemma sorted_ints_Permutation (l : list Z) : sorted_ints l ≡ₚ l.
Proof.
  unfold sorted_ints. rewrite stable_sort_Permutation.
  rewrite <- list_fmap_compose. by rewrite list_fmap_id.
Qed.

Lemma sorted_ints_sorted (l : list Z) : StronglySorted Z.le (sorted_ints l).
Proof.
  assert (StronglySorted (key_then_input Z.leb (λ _ _ : Z, True))
            (stable_sort Z.leb ((λ i, (i, i)) <$> l))) as Hs.
  { apply stable_sort_sorted.
    - intros a b. rewrite Z.leb_gt, Z.leb_le. lia.
    - intros a b c. rewrite !Z.leb_le. lia.
    - apply StronglySorted_from_lookup. done. }
  unfold sorted_ints. apply StronglySorted_from_lookup.
  intros i j x y Hij Hx Hy. rewrite list_lookup_fmap in Hx, Hy.
  destruct (_ !! i) as [[k1 x']|] eqn:E1; [|done].
  destruct (_ !! j) as [[k2 y']|] eqn:E2; [|done].
  cbn in Hx, Hy. injection Hx as ->. injection Hy as ->.
  destruct (StronglySorted_lookup _ _ i j _ _ Hs Hij E1 E2) as [Hle _].
  cbn in Hle. apply Z.leb_le in Hle.
  apply list_elem_of_lookup_2 in E1, E2.
  rewrite stable_sort_Permutation in E1, E2.
  apply list_elem_of_fmap in E1 as (? & [= -> ->] & _).
  apply list_elem_of_fmap in E2 as (? & [= -> ->] & _). done.
Qed.

(** The test [sorted(indices) != list(range(n))] fails exactly on the
    permutations of the indices. *)
Lemma sorted_ints_range (l : list Z) (n : Z) :
  sorted_ints l = seqZ 0 n ↔ l ≡ₚ seqZ 0 n.
Proof.
  split.
  - intros <-. by rewrite sorted_ints_Permutation.
  - intros Hp. apply (StronglySorted_unique Z.le).
    + apply sorted_ints_sorted.
    + apply StronglySorted_seqZ.
    + by rewrite sorted_ints_Permutation.
Qed.

Lemma list_getitem_range {A} (l : list A) (i : nat) :
  list_getitem l (Z.of_nat i) = l !! i.
Proof.
  unfold list_getitem. rewrite decide_True by lia. by rewrite Nat2Z.id.
Qed.

Lemma omap_getitem_range {A} (l : list A) :
  omap (list_getitem l) (seqZ 0 (len l)) = l.
Proof.
  unfold len. induction l as [|x l IH] using rev_ind; [done|].
  rewrite length_app. cbn [length].
  replace (Z.of_nat (length l + 1)) with (Z.of_nat (length l) + 1) by lia.
  rewrite seqZ_app by lia. rewrite omap_app. f_equal.
  - etrans; [|exact IH]. apply list_omap_ext.
    apply Forall2_same_length_lookup_2; [done|].
    intros i y z Hy Hz. rewrite Hy in Hz. injection Hz as <-.
    apply lookup_seqZ in Hy as [-> Hi]. rewrite Z.add_0_l.
    rewrite !list_getitem_range.
    apply lookup_app_l. lia.
  - change (seqZ (0 + Z.of_nat (length l)) 1) with [Z.of_nat (length l)].
    cbn [omap list_omap]. rewrite list_getitem_range.
    by rewrite list_lookup_middle.
Qed.

(** The items picked at indices that are a permutation of the indices
    of the list are a permutation of the list. *)
Lemma pick_permutation {A} (l : list A) (indices : list Z) :
  indices ≡ₚ seqZ 0 (len l) →
  ∃ picked, mapM (list_getitem l) indices = Some picked ∧ picked ≡ₚ l.
Proof.
  intros Hp.
  assert (is_Some (mapM (list_getitem l) indices)) as [picked Hm].
  { apply mapM_is_Some. apply Forall_forall. intros i Hi.
    rewrite Hp in Hi. apply list_elem_of_lookup_1 in Hi as [k Hk].
    apply lookup_seqZ in Hk as [-> Hk]. cbn. rewrite Z.add_0_l.
    rewrite list_getitem_range.
    apply lookup_lt_is_Some. unfold len in Hk. lia. }
  exists picked. split; [done|].
  assert (omap (list_getitem l) indices = picked) as <-.
  { apply mapM_Some_1 in Hm. clear Hp.
    induction Hm as [|i x ks xs Hi _ IH]; [done|].
    cbn. by rewrite Hi, IH. }
  by rewrite Hp, omap_getitem_range.
Qed.

Section ConsoleFacts.
Context (int_of : string → option Z) (strip : string → string).

Lemma get_individual_ranking_loop (self : Session) (person_name : string)
    (stdin : list string) :
  get_individual_ranking int_of strip self person_name stdin
  = (Printed (nl +:+ person_name
              +:+ "，請為以下物品排序（輸入物品編號，用逗號分隔）:")
     :: Printed "例如: 1,3,5,2,4,6,7,8,9,10,11,12,13,14,15"
     :: (ranking_loop int_of strip self person_name stdin).1,
     (ranking_loop int_of strip self person_name stdin).2).
Proof.
  unfold get_individual_ranking, mbind, io_bind, print.
  by destruct (ranking_loop int_of strip self person_name stdin)
    as [evs [s' rest|e]].
Qed.

(** A line that is not acceptable costs one message and one more turn
    of the loop. *)
Lemma ranking_loop_rejects (self : Session) (person_name line : string) :
  ¬ acceptable int_of strip (MoonSurvival.items (experiment self)) line →
  ∃ text, ∀ rest,
    ranking_loop int_of strip self person_name (line :: rest)
    = (Asked (person_name +:+ " 的排序: ") :: Printed text
       :: (ranking_loop int_of strip self person_name rest).1,
       (ranking_loop int_of strip self person_name rest).2).
Proof.
  intros Hno. cbn [ranking_loop].
  destruct (parse_indices int_of strip line) as [indices|] eqn:Ep.
  - destruct (decide (len indices
                      ≠ len (MoonSurvival.items (experiment self)))).
    + eexists. intros rest.
      by destruct (ranking_loop int_of strip self person_name rest).
    + destruct (decide (sorted_ints indices
                        ≠ seqZ 0 (len (MoonSurvival.items
                                         (experiment self))))) as [|Hs].
      * eexists. intros rest.
        by destruct (ranking_loop int_of strip self person_name rest).
      * destruct Hno. exists indices. split; [done|].
        apply sorted_ints_range. by destruct (decide (sorted_ints indices
          = seqZ 0 (len (MoonSurvival.items (experiment self))))).
  - eexists. intros rest.
    by destruct (ranking_loop int_of strip self person_name rest).
Qed.

(** An acceptable line ends the loop: the items it names are stored. *)
Lemma ranking_loop_accepts (self : Session) (person_name line : string)
    (indices : list Z) (rest : list string) :
  parse_indices int_of strip line = Some indices →
  indices ≡ₚ seqZ 0 (len (MoonSurvival.items (experiment self))) →
  ∃ ranking,
    mapM (list_getitem (MoonSurvival.items (experiment self))) indices
    = Some ranking
    ∧ ranking ≡ₚ MoonSurvival.items (experiment self)
    ∧ ranking_loop int_of strip self person_name (line :: rest)
      = ([Asked (person_name +:+ " 的排序: ");
          Printed ("✅ 排序已保存" +:+ nl)],
         Returned (set_ranking self person_name ranking) rest).
Proof.
  intros Hparse Hp.
  destruct (pick_permutation _ _ Hp) as (ranking & Hm & Hr).
  exists ranking. split; [done|]. split; [done|].
  cbn [ranking_loop]. rewrite Hparse.
  rewrite decide_False.
  2:{ intros Hne. apply Hne. unfold len at 1.
      rewrite (Permutation_length Hp), length_seqZ. unfold len. lia. }
  rewrite decide_False by (intros Hne; by apply Hne, sorted_ints_range).
  by rewrite Hm.
Qed.

Lemma acceptable_dec (items : list Item) (line : string) :
  acceptable int_of strip items line ∨ ¬ acceptable int_of strip items line.
Proof.
  unfold acceptable.
  destruct (parse_indices int_of strip line) as [indices|]; [|right].
  - destruct (decide (sorted_ints indices = seqZ 0 (len items))) as [Hs|Hs].
    + left. exists indices. split; [done|]. by apply sorted_ints_range.
    + right. intros (indices' & [= <-] & Hp). by apply Hs, sorted_ints_range.
  - by intros (? & ? & _).
Qed.

(** The shape of the input when the loop returns. *)
Lemma ranking_loop_returned (self self' : Session) (person_name : string)
    (stdin rest : list string) (evs : list event) :
  ranking_loop int_of strip self person_name stdin = (evs, Returned self' rest) →
  ∃ bad line indices ranking,
    stdin = bad ++ line :: rest
    ∧ Forall (λ l, ¬ acceptable int_of strip
                       (MoonSurvival.items (experiment self)) l) bad
    ∧ parse_indices int_of strip line = Some indices
    ∧ indices ≡ₚ seqZ 0 (len (MoonSurvival.items (experiment self)))
    ∧ mapM (list_getitem (MoonSurvival.items (experiment self))) indices
      = Some ranking
    ∧ ranking ≡ₚ MoonSurvival.items (experiment self)
    ∧ self' = set_ranking self person_name ranking
    ∧ length evs = (2 + 2 * length bad)%nat.
Proof.
  revert evs. induction stdin as [|line stdin IH]; intros evs Hr; [done|].
  destruct (acceptable_dec (MoonSurvival.items (experiment self)) line)
    as [(indices & Hparse & Hp)|Hno].
  - destruct (ranking_loop_accepts self person_name line indices stdin
                Hparse Hp) as (ranking & Hm & Hperm & Hloop).
    rewrite Hloop in Hr. injection Hr as <- <- <-.
    by exists [], line, indices, ranking.
  - destruct (ranking_loop_rejects self person_name line Hno) as [text Ht].
    rewrite Ht in Hr.
    destruct (ranking_loop int_of strip self person_name stdin)
      as [evs' r'] eqn:E. cbn in Hr. injection Hr as <- ->.
    destruct (IH evs' eq_refl)
      as (bad & line' & indices & ranking & -> & Hbad & ? & ? & ? & ? & ? & Hl).
    exists (line :: bad), line', indices, ranking.
    repeat split; try done; [by constructor|]. cbn. lia.
Qed.

(** The loop fails only when the input ends, no line having been
    acceptable. *)
Lemma ranking_loop_failed (self : Session) (person_name : string)
    (stdin : list string) (evs : list event) (e : console_exn) :
  ranking_loop int_of strip self person_name stdin = (evs, Failed e) →
  e = EOFError
  ∧ Forall (λ l, ¬ acceptable int_of strip
                     (MoonSurvival.items (experiment self)) l) stdin.
Proof.
  revert evs. induction stdin as [|line stdin IH]; intros evs Hr.
  - cbn in Hr. by injection Hr as <- <-.
  - destruct (acceptable_dec (MoonSurvival.items (experiment self)) line)
      as [(indices & Hparse & Hp)|Hno].
    + destruct (ranking_loop_accepts self person_name line indices stdin
                  Hparse Hp) as (ranking & _ & _ & Hloop).
      by rewrite Hloop in Hr.
    + destruct (ranking_loop_rejects self person_name line Hno) as [text Ht].
      rewrite Ht in Hr.
      destruct (ranking_loop int_of strip self person_name stdin)
        as [evs' r'] eqn:E. cbn in Hr. injection Hr as <- ->.
      destruct (IH evs' eq_refl) as [-> Hall]. split; [done|by constructor].
Qed.

Lemma ranking_loop_end_of_input (self : Session) (person_name : string)
    (stdin : list string) :
  Forall (λ l, ¬ acceptable int_of strip
                   (MoonSurvival.items (experiment self)) l) stdin →
  ∃ evs, ranking_loop int_of strip self person_name stdin
         = (evs, Failed EOFError)
         ∧ length evs = (2 * length stdin + 1)%nat.
Proof.
  induction 1 as [|line stdin Hno _ IH]; [by eexists|].
  destruct IH as (evs & Hloop & Hlen).
  destruct (ranking_loop_rejects self person_name line Hno) as [text Ht].
  eexists. rewrite Ht, Hloop. split; [done|]. cbn. lia.
Qed.

End ConsoleFacts.

(** ** Sequencing at the console *)

Lemma bind_returned {A B} (m : io A) (k : A → io B) (stdin rest : list string)
    (evs : list event) (b : B) :
  (m ≫= k) stdin = (evs, Returned b rest) →
  ∃ evs1 a stdin1 evs2,
    m stdin = (evs1, Returned a stdin1)
    ∧ k a stdin1 = (evs2, Returned b rest)
    ∧ evs = evs1 ++ evs2.
Proof.
  unfold mbind, io_bind. destruct (m stdin) as [evs1 [a stdin1|e]]; [|done].
  destruct (k a stdin1) as [evs2 r] eqn:E. intros [= <- ->].
  by exists evs1, a, stdin1, evs2.
Qed.

Lemma bind_failed {A B} (m : io A) (k : A → io B) (stdin : list string)
    (evs : list event) (e : console_exn) :
  (m ≫= k) stdin = (evs, Failed e) →
  m stdin = (evs, Failed e)
  ∨ ∃ evs1 a stdin1 evs2,
      m stdin = (evs1, Returned a stdin1)
      ∧ k a stdin1 = (evs2, Failed e)
      ∧ evs = evs1 ++ evs2.
Proof.
  unfold mbind, io_bind. destruct (m stdin) as [evs1 [a stdin1|e1]].
  - destruct (k a stdin1) as [evs2 r] eqn:E. intros [= <- ->].
    right. by exists evs1, a, stdin1, evs2.
  - intros [= <- <-]. by left.
Qed.

Lemma print_all_returned (texts : list string) (stdin rest : list string)
    (evs : list event) (u : ()) :
  print_all texts stdin = (evs, Returned u rest) →
  evs = Printed <$> texts ∧ rest = stdin.
Proof. by intros [= <- <-]. Qed.

Lemma print_returned (text : string) (stdin rest : list string)
    (evs : list event) (u : ()) :
  print text stdin = (evs, Returned u rest) →
  evs = [Printed text] ∧ rest = stdin.
Proof. by intros [= <- <-]. Qed.

Lemma calculate_team_ranking_total
    (self : MoonSurvival.MoonSurvivalExperiment) :
  ∃ self' out,
    MoonSurvival.calculate_team_ranking self = Ok (self', out)
    ∧ MoonSurvival.items self' = MoonSurvival.items self
    ∧ MoonSurvival.individual_rankings self'
      = MoonSurvival.individual_rankings self
    ∧ (MoonSurvival.individual_rankings self = ∅ →
       MoonSurvival.team_ranking self' = MoonSurvival.team_ranking self
       ∧ out = ["❌ 沒有個人排名資料"])
    ∧ (MoonSurvival.individual_rankings self ≠ ∅ →
       MoonSurvival.team_ranking self'
       = (stable_sort Qle_bool (by_mean_position self)).*2
       ∧ out = []).
Proof.
  destruct (decide (MoonSurvival.individual_rankings self = ∅)) as [He|Hne].
  - exists self, ["❌ 沒有個人排名資料"].
    split; [unfold MoonSurvival.calculate_team_ranking;
            by rewrite decide_True|].
    by repeat split.
  - eexists _, _. split; [by apply calculate_team_ranking_ok|].
    by repeat split.
Qed.

Lemma calculate_team_ranking_io_returned (self : Session)
    (stdin : list string) :
  ∃ self' out,
    calculate_team_ranking_io self stdin
    = (Printed <$> out, Returned self' stdin)
    ∧ MoonSurvival.calculate_team_ranking (experiment self)
      = Ok (experiment self', out)
    ∧ key_order self' = key_order self.
Proof.
  destruct (calculate_team_ranking_total (experiment self))
    as (e' & out & Hc & _).
  exists {| experiment := e'; key_order := key_order self |}, out.
  unfold calculate_team_ranking_io. rewrite Hc.
  unfold mbind, io_bind, print_all, mret, io_ret.
  by rewrite app_nil_r.
Qed.

Section GetIndividualRanking.
Context (int_of : string → option Z) (strip : string → string).

(** X12. When [get_individual_ranking] returns, the ranking it has
    stored for the person is a permutation of the items of the
    experiment; the rankings of the other people, the items and the team
    ranking are as before, and at least one line of the input was
    read. *)
Theorem get_individual_ranking_stores_permutation
    (self self' : Session) (person_name : string)
    (stdin rest : list string) (evs : list event) :
  get_individual_ranking int_of strip self person_name stdin
  = (evs, Returned self' rest) →
  ∃ ranking,
    ranking ≡ₚ MoonSurvival.items (experiment self)
    ∧ MoonSurvival.individual_rankings (experiment self') !! person_name
      = Some ranking
    ∧ (∀ other, other ≠ person_name →
         MoonSurvival.individual_rankings (experiment self') !! other
         = MoonSurvival.individual_rankings (experiment self) !! other)
    ∧ MoonSurvival.items (experiment self')
      = MoonSurvival.items (experiment self)
    ∧ MoonSurvival.team_ranking (experiment self')
      = MoonSurvival.team_ranking (experiment self)
    ∧ ∃ read, read ≠ [] ∧ stdin = read ++ rest.
Proof.
  rewrite get_individual_ranking_loop. intros [= <- Hr].
  destruct (ranking_loop int_of strip self person_name stdin)
    as [evs' r] eqn:E. cbn in Hr. subst r.
  apply ranking_loop_returned in E
    as (bad & line & indices & ranking & -> & _ & _ & _ & _ & Hp & -> & _).
  exists ranking. split; [done|]. cbn.
  split; [apply lookup_insert_eq|].
  split; [intros other Hne; by apply lookup_insert_ne|].
  split; [done|]. split; [done|].
  exists (bad ++ [line]). split; [by destruct bad|].
  by rewrite <- app_assoc.
Qed.

(** X13. [get_individual_ranking] takes the first acceptable line of
    the input: every line before it costs one prompt and one message,
    the items named by the line are stored in the order given, and the
    lines after it are left unread. *)
Theorem get_individual_ranking_takes_first_acceptable
    (self : Session) (person_name line : string)
    (bad rest : list string) (indices : list Z) :
  Forall (λ l, ¬ acceptable int_of strip
                   (MoonSurvival.items (experiment self)) l) bad →
  parse_indices int_of strip line = Some indices →
  indices ≡ₚ seqZ 0 (len (MoonSurvival.items (experiment self))) →
  ∃ evs ranking,
    get_individual_ranking int_of strip self person_name
      (bad ++ line :: rest)
    = (evs, Returned (set_ranking self person_name ranking) rest)
    ∧ Forall2 (λ i item,
                 MoonSurvival.items (experiment self) !! Z.to_nat i
                 = Some item) indices ranking
    ∧ length evs = (4 + 2 * length bad)%nat.
Proof.
  intros Hbad Hparse Hp. rewrite get_individual_ranking_loop.
  destruct (ranking_loop_accepts int_of strip self person_name line indices
              rest Hparse Hp) as (ranking & Hm & _ & Hloop).
  assert (∃ evs,
            ranking_loop int_of strip self person_name (bad ++ line :: rest)
            = (evs, Returned (set_ranking self person_name ranking) rest)
            ∧ length evs = (2 + 2 * length bad)%nat) as (evs & -> & Hlen).
  { induction Hbad as [|l bad Hl _ IH]; [by eexists|].
    destruct IH as (evs & IH & Hlen).
    destruct (ranking_loop_rejects int_of strip self person_name l Hl)
      as [text Ht].
    eexists. cbn [app]. rewrite Ht, IH. split; [done|]. cbn. lia. }
  eexists _, ranking. split; [done|]. split; [|cbn; lia].
  apply mapM_Some_1 in Hm.
  apply Forall2_same_length_lookup_2; [by eapply Forall2_length|].
  intros k i item Hi Hitem.
  pose proof (Forall2_lookup_lr _ _ _ _ _ _ Hm Hi Hitem) as Hget.
  cbn in Hget. unfold list_getitem in Hget.
  destruct (decide (0 ≤ i)); [done|].
  assert (i ∈ seqZ 0 (len (MoonSurvival.items (experiment self)))) as Hin
    by (rewrite <- Hp; by eapply list_elem_of_lookup_2).
  apply list_elem_of_lookup_1 in Hin as [k' Hk].
  apply lookup_seqZ in Hk. lia.
Qed.

(** X14. [get_individual_ranking] fails only with [EOFError], and does
    so exactly when no line of the input is acceptable. *)
Theorem get_individual_ranking_fails_at_end_of_input
    (self : Session) (person_name : string) (stdin : list string) :
  (∀ evs e,
     get_individual_ranking int_of strip self person_name stdin
     = (evs, Failed e) →
     e = EOFError
     ∧ Forall (λ l, ¬ acceptable int_of strip
                        (MoonSurvival.items (experiment self)) l) stdin)
  ∧ (Forall (λ l, ¬ acceptable int_of strip
                      (MoonSurvival.items (experiment self)) l) stdin →
     ∃ evs,
       get_individual_ranking int_of strip self person_name stdin
       = (evs, Failed EOFError)
       ∧ length evs = (2 * length stdin + 3)%nat).
Proof.
  split.
  - intros evs e. rewrite get_individual_ranking_loop. intros [= <- Hr].
    destruct (ranking_loop int_of strip self person_name stdin)
      as [evs' r] eqn:E. cbn in Hr. subst r.
    by apply ranking_loop_failed in E.
  - intros Hall. rewrite get_individual_ranking_loop.
    destruct (ranking_loop_end_of_input int_of strip self person_name stdin
                Hall) as (evs & -> & Hlen).
    eexists. split; [done|]. cbn. lia.
Qed.

End GetIndividualRanking.

Lemma short_line_not_acceptable :
  ¬ acceptable decimal id MoonSurvival.OFFICIAL_ITEMS "1,2,3".
Proof.
  intros (indices & Hparse & Hp). vm_compute in Hparse.
  injection Hparse as <-. apply Permutation_length in Hp.
  vm_compute in Hp. discriminate.
Qed.

Lemma get_individual_ranking_stores_permutation_witness :
  ∃ evs self',
    get_individual_ranking decimal id new_session "ann"
      ["1,2,3"; "15,14,13,12,11,10,9,8,7,6,5,4,3,2,1"; "later"]
    = (evs, Returned self' ["later"])
    ∧ ∃ ranking,
        ranking ≡ₚ MoonSurvival.items (experiment new_session)
        ∧ MoonSurvival.individual_rankings (experiment self') !! "ann"
          = Some ranking
        ∧ (∀ other, other ≠ "ann" →
             MoonSurvival.individual_rankings (experiment self') !! other
             = MoonSurvival.individual_rankings (experiment new_session)
                 !! other)
        ∧ MoonSurvival.items (experiment self')
          = MoonSurvival.items (experiment new_session)
        ∧ MoonSurvival.team_ranking (experiment self')
          = MoonSurvival.team_ranking (experiment new_session)
        ∧ ∃ read, read ≠ []
            ∧ ["1,2,3"; "15,14,13,12,11,10,9,8,7,6,5,4,3,2,1"; "later"]
              = read ++ ["later"].
Proof.
  eexists _, _. split; [vm_compute; reflexivity|].
  eapply (get_individual_ranking_stores_permutation decimal id new_session).
  vm_compute. reflexivity.
Defined.

Lemma get_individual_ranking_takes_first_acceptable_witness :
  Forall (λ l, ¬ acceptable decimal id
                   (MoonSurvival.items (experiment new_session)) l)
         ["1,2,3"]
  ∧ parse_indices decimal id "15,14,13,12,11,10,9,8,7,6,5,4,3,2,1"
    = Some (reverse (seqZ 0 15))
  ∧ reverse (seqZ 0 15)
    ≡ₚ seqZ 0 (len (MoonSurvival.items (experiment new_session)))
  ∧ ∃ evs ranking,
      get_individual_ranking decimal id new_session "ann"
        (["1,2,3"] ++ "15,14,13,12,11,10,9,8,7,6,5,4,3,2,1" :: ["later"])
      = (evs, Returned (set_ranking new_session "ann" ranking) ["later"])
      ∧ Forall2 (λ i item,
                   MoonSurvival.items (experiment new_session) !! Z.to_nat i
                   = Some item) (reverse (seqZ 0 15)) ranking
      ∧ length evs = (4 + 2 * length ["1,2,3"])%nat.
Proof.
  assert (Forall (λ l, ¬ acceptable decimal id
                           (MoonSurvival.items (experiment new_session)) l)
                 ["1,2,3"]) as Hbad
    by (constructor; [apply short_line_not_acceptable|constructor]).
  assert (parse_indices decimal id "15,14,13,12,11,10,9,8,7,6,5,4,3,2,1"
          = Some (reverse (seqZ 0 15))) as Hparse
    by (vm_compute; reflexivity).
  assert (reverse (seqZ 0 15)
          ≡ₚ seqZ 0 (len (MoonSurvival.items (experiment new_session))))
    as Hp by apply reverse_Permutation.
  split; [exact Hbad|]. split; [exact Hparse|]. split; [exact Hp|].
  exact (get_individual_ranking_takes_first_acceptable decimal id
           new_session "ann" _ ["1,2,3"] ["later"] _ Hbad Hparse Hp).
Defined.

Lemma get_individual_ranking_fails_at_end_of_input_witness :
  Forall (λ l, ¬ acceptable decimal id
                   (MoonSurvival.items (experiment new_session)) l)
         ["1,2,3"]
  ∧ ∃ evs,
      get_individual_ranking decimal id new_session "ann" ["1,2,3"]
      = (evs, Failed EOFError)
      ∧ length evs = (2 * length ["1,2,3"] + 3)%nat
      ∧ EOFError = EOFError
      ∧ Forall (λ l, ¬ acceptable decimal id
                         (MoonSurvival.items (experiment new_session)) l)
               ["1,2,3"].
Proof.
  assert (Forall (λ l, ¬ acceptable decimal id
                           (MoonSurvival.items (experiment new_session)) l)
                 ["1,2,3"]) as Hbad
    by (constructor; [apply short_line_not_acceptable|constructor]).
  split; [exact Hbad|].
  destruct (get_individual_ranking_fails_at_end_of_input decimal id
              new_session "ann" ["1,2,3"]) as [Honly Hend].
  destruct (Hend Hbad) as (evs & Hrun & Hlen).
  exists evs. split; [exact Hrun|]. split; [exact Hlen|].
  exact (Honly evs EOFError Hrun).
Defined.

Lemma official_ranks_of_picked (indices : list Z) (ranking : list Item) :
  Forall2 (λ i item,
             MoonSurvival.OFFICIAL_ITEMS !! Z.to_nat i = Some item)
          indices ranking →
  Forall (λ i, 0 ≤ i) indices →
  official_rank <$> ranking = (λ i, i + 1) <$> indices.
Proof.
  induction 1 as [|i item indices ranking Hi _ IH]; [done|].
  intros [Hpos Hall]%Forall_cons. rewrite !fmap_cons. f_equal; [|by apply IH].
  apply list_elem_of_lookup_2 in Hi as Hin.
  apply official_item_index in Hin as [Hr Hidx].
  assert (Z.to_nat i = Z.to_nat (official_rank item - 1)) as Heq.
  { eapply NoDup_lookup; [apply NoDup_OFFICIAL_ITEMS|exact Hi|exact Hidx]. }
  lia.
Qed.

Lemma parse_indices_numbers (int_of : string → option Z)
    (strip : string → string) (line : string) (indices : list Z) :
  parse_indices int_of strip line = Some indices →
  mapM (λ x, int_of (strip x)) (split_on ","%char line)
  = Some ((λ i, i + 1) <$> indices).
Proof.
  unfold parse_indices. intros Hm%mapM_Some_1. apply mapM_Some_2.
  induction Hm as [|x i xs ks Hx _ IH]; [constructor|].
  rewrite fmap_cons. constructor; [|done].
  destruct (int_of (strip x)) as [n|]; [|done].
  cbn in Hx. injection Hx as <-. f_equal. lia.
Qed.

(** X15. On the reference table, the ranking [get_individual_ranking]
    stores lists the items whose official ranks are the numbers typed
    on the line it took, in the order typed. *)
Theorem stored_ranking_has_typed_ranks (int_of : string → option Z)
    (strip : string → string) (self self' : Session)
    (person_name : string) (stdin rest : list string) (evs : list event) :
  MoonSurvival.items (experiment self) = MoonSurvival.OFFICIAL_ITEMS →
  get_individual_ranking int_of strip self person_name stdin
  = (evs, Returned self' rest) →
  ∃ line numbers ranking,
    line ∈ stdin
    ∧ mapM (λ x, int_of (strip x)) (split_on ","%char line) = Some numbers
    ∧ MoonSurvival.individual_rankings (experiment self') !! person_name
      = Some ranking
    ∧ official_rank <$> ranking = numbers.
Proof.
  intros Hitems. rewrite get_individual_ranking_loop. intros [= <- Hr].
  destruct (ranking_loop int_of strip self person_name stdin)
    as [evs' r] eqn:E. cbn in Hr. subst r.
  apply ranking_loop_returned in E
    as (bad & line & indices & ranking & -> & _ & Hparse & Hp & Hm & _ & ->
        & _).
  exists line, ((λ i, i + 1) <$> indices), ranking.
  split; [set_solver|]. split; [by apply parse_indices_numbers|].
  split; [apply lookup_insert_eq|].
  rewrite Hitems in Hm, Hp. apply official_ranks_of_picked.
  - apply mapM_Some_1 in Hm.
    apply Forall2_same_length_lookup_2; [by eapply Forall2_length|].
    intros k i item Hi Hitem.
    pose proof (Forall2_lookup_lr _ _ _ _ _ _ Hm Hi Hitem) as Hget.
    cbn in Hget. unfold list_getitem in Hget.
    destruct (decide (0 ≤ i)); [done|].
    assert (i ∈ seqZ 0 (len MoonSurvival.OFFICIAL_ITEMS)) as Hin
      by (rewrite <- Hp; by eapply list_elem_of_lookup_2).
    apply list_elem_of_lookup_1 in Hin as [k' Hk].
    apply lookup_seqZ in Hk. lia.
  - apply Forall_forall. intros i Hi. rewrite Hp in Hi.
    apply list_elem_of_lookup_1 in Hi as [k Hk].
    apply lookup_seqZ in Hk. lia.
Qed.

Lemma stored_ranking_has_typed_ranks_witness :
  MoonSurvival.items (experiment new_session) = MoonSurvival.OFFICIAL_ITEMS
  ∧ ∃ evs self',
      get_individual_ranking decimal id new_session "ann"
        ["1,2,3"; "15,14,13,12,11,10,9,8,7,6,5,4,3,2,1"; "later"]
      = (evs, Returned self' ["later"])
      ∧ ∃ line numbers ranking,
          line ∈ ["1,2,3"; "15,14,13,12,11,10,9,8,7,6,5,4,3,2,1"; "later"]
          ∧ mapM (λ x, decimal (id x)) (split_on ","%char line)
            = Some numbers
          ∧ MoonSurvival.individual_rankings (experiment self') !! "ann"
            = Some ranking
          ∧ official_rank <$> ranking = numbers.
Proof.
  split; [reflexivity|].
  eexists _, _. split; [vm_compute; reflexivity|].
  eapply (stored_ranking_has_typed_ranks decimal id new_session);
    [reflexivity|]. vm_compute. reflexivity.
Defined.

(** ** The single mode *)

Lemma symbol_ticked (rank : Z) (item : Item) :
  symbol_of rank item = "✓" ↔ rank = official_rank item.
Proof.
  unfold symbol_of. destruct (decide (rank - official_rank item = 0)).
  - split; [lia|done].
  - split; [done|lia].
Qed.

(** X16. The accuracy [run_single_mode] prints for a ranking is 0
    exactly when every row of its report bears the mark of a right
    placement. *)
Theorem perfect_score_iff_all_rows_ticked (ranking : list Item) :
  MoonSurvival.calculate_accuracy ranking = 0 ↔
  Forall (λ row, symbol_of row.1 row.2 = "✓") (enumerate_from 1 ranking).
Proof.
  rewrite calculate_accuracy_sum. split.
  - intros Hz. apply sum_zero in Hz.
    2:{ apply Forall_lookup. intros i x. rewrite list_lookup_imap.
        destruct (ranking !! i); [|done]. cbn. intros [= <-]. lia. }
    apply Forall_lookup. intros i [rank item].
    rewrite enumerate_from_lookup.
    destruct (ranking !! i) as [it|] eqn:E; [|done]. cbn. intros [= <- <-].
    apply symbol_ticked. rewrite Forall_lookup in Hz.
    specialize (Hz i (Z.abs (official_rank it - 1 - Z.of_nat i))).
    rewrite list_lookup_imap, E in Hz. specialize (Hz eq_refl). lia.
  - intros Hall.
    rewrite (sum_all_eq _ 0); [lia|].
    apply Forall_lookup. intros i x. rewrite list_lookup_imap.
    destruct (ranking !! i) as [it|] eqn:E; [|done]. cbn. intros [= <-].
    rewrite Forall_lookup in Hall. specialize (Hall i (1 + Z.of_nat i, it)).
    rewrite enumerate_from_lookup, E in Hall. specialize (Hall eq_refl).
    apply symbol_ticked in Hall. cbn in Hall. lia.
Qed.

Lemma perfect_score_iff_all_rows_ticked_witness :
  MoonSurvival.calculate_accuracy MoonSurvival.OFFICIAL_ITEMS = 0
  ∧ Forall (λ row, symbol_of row.1 row.2 = "✓")
           (enumerate_from 1 MoonSurvival.OFFICIAL_ITEMS).
Proof.
  assert (MoonSurvival.calculate_accuracy MoonSurvival.OFFICIAL_ITEMS = 0)
    as Hzero by reflexivity.
  split; [exact Hzero|].
  exact (proj1 (perfect_score_iff_all_rows_ticked MoonSurvival.OFFICIAL_ITEMS)
               Hzero).
Defined.

Lemma get_individual_ranking_returned (int_of : string → option Z)
    (strip : string → string) (self self' : Session) (person_name : string)
    (stdin rest : list string) (evs : list event) :
  get_individual_ranking int_of strip self person_name stdin
  = (evs, Returned self' rest) →
  ∃ ranking,
    ranking ≡ₚ MoonSurvival.items (experiment self)
    ∧ self' = set_ranking self person_name ranking.
Proof.
  rewrite get_individual_ranking_loop. intros [= <- Hr].
  destruct (ranking_loop int_of strip self person_name stdin)
    as [evs' r] eqn:E. cbn in Hr. subst r.
  apply ranking_loop_returned in E
    as (bad & line & indices & ranking & _ & _ & _ & _ & _ & Hp & -> & _).
  by exists ranking.
Qed.

Lemma get_individual_ranking_failed (int_of : string → option Z)
    (strip : string → string) (self : Session) (person_name : string)
    (stdin : list string) (evs : list event) (e : console_exn) :
  get_individual_ranking int_of strip self person_name stdin
  = (evs, Failed e) →
  e = EOFError.
Proof.
  rewrite get_individual_ranking_loop. intros [= <- Hr].
  destruct (ranking_loop int_of strip self person_name stdin)
    as [evs' r] eqn:E. cbn in Hr. subst r.
  by apply ranking_loop_failed in E as [-> _].
Qed.

Lemma single_ranking_is_team_ranking
    (self : MoonSurvival.MoonSurvivalExperiment) (person : string)
    (ranking : list Item) :
  MoonSurvival.items self = MoonSurvival.OFFICIAL_ITEMS →
  MoonSurvival.individual_rankings self = {[person := ranking]} →
  ranking ≡ₚ MoonSurvival.OFFICIAL_ITEMS →
  (stable_sort Qle_bool (by_mean_position self)).*2 = ranking.
Proof.
  intros Hitems Hr Hp.
  pose proof (team_ranking_Permutation self) as Hteam.
  rewrite Hitems in Hteam.
  apply same_names_same_items.
  - apply Forall_forall. intros it Hin. by rewrite <- same_table, <- Hteam.
  - apply Forall_forall. intros it Hin. by rewrite <- same_table, <- Hp.
  - apply (single_submission_names self person ranking Hitems Hr).
    unfold reference_names. rewrite <- same_table. by rewrite Hp.
Qed.

(** X17. Started on an experiment with the reference items and no
    ranking, [run_single_mode], when it returns, has stored one ranking,
    that of the player, a permutation of the reference items; the team
    ranking it has computed is that same ranking, and what it printed
    ends with the report on it. *)
Theorem run_single_mode_reports_player_ranking
    (int_of : string → option Z) (strip : string → string)
    (self self' : Session) (stdin rest : list string) (evs : list event) :
  MoonSurvival.items (experiment self) = MoonSurvival.OFFICIAL_ITEMS →
  MoonSurvival.individual_rankings (experiment self) = ∅ →
  run_single_mode int_of strip self stdin = (evs, Returned self' rest) →
  ∃ ranking,
    ranking ≡ₚ MoonSurvival.OFFICIAL_ITEMS
    ∧ MoonSurvival.individual_rankings (experiment self')
      = {["玩家" := ranking]}
    ∧ MoonSurvival.team_ranking (experiment self') = ranking
    ∧ (Printed <$> single_mode_report ranking) `suffix_of` evs.
Proof.
  intros Hitems Hempty Hrun. unfold run_single_mode in Hrun.
  apply bind_returned in Hrun as (e0 & [] & in0 & e0' & _ & Hrun & ->).
  apply bind_returned in Hrun as (e1 & self1 & in1 & e1' & Hget & Hrun & ->).
  apply bind_returned in Hrun as (e2 & self2 & in2 & e2' & Hteam & Hrun & ->).
  apply bind_returned in Hrun as (e3 & [] & in3 & e3' & _ & Hrun & ->).
  apply bind_returned in Hrun as (e4 & [] & in4 & e4' & _ & Hrun & ->).
  apply bind_returned in Hrun as (e5 & [] & in5 & e5' & _ & Hrun & ->).
  apply get_individual_ranking_returned in Hget as (ranking & Hp & ->).
  rewrite Hitems in Hp.
  destruct (calculate_team_ranking_io_returned
              (set_ranking self "玩家" ranking) in1)
    as (self2' & out & Hio & Hcalc & _).
  rewrite Hio in Hteam. injection Hteam as _ <- _.
  cbn [experiment set_ranking] in Hcalc. rewrite Hempty, insert_empty in Hcalc.
  rewrite calculate_team_ranking_ok in Hcalc
    by (cbn; apply map_non_empty_singleton).
  injection Hcalc as Hexp _.
  rewrite (single_ranking_is_team_ranking _ "玩家" ranking) in Hexp
    by done.
  rewrite <- Hexp in Hrun. cbn [MoonSurvival.individual_rankings] in Hrun.
  rewrite lookup_singleton_eq in Hrun.
  apply bind_returned in Hrun as (e6 & [] & in6 & e6' & Hprint & Hret & ->).
  apply print_all_returned in Hprint as [-> ->].
  injection Hret as <- <- _.
  exists ranking. rewrite <- Hexp. cbn. repeat split; [done|].
  rewrite app_nil_r. rewrite !app_assoc. by eexists.
Qed.

Lemma run_single_mode_reports_player_ranking_witness :
  MoonSurvival.items (experiment new_session) = MoonSurvival.OFFICIAL_ITEMS
  ∧ MoonSurvival.individual_rankings (experiment new_session) = ∅
  ∧ ∃ evs self',
      run_single_mode decimal id new_session
        ["2,1,3,4,5,6,7,8,9,10,11,12,13,14,15"]
      = (evs, Returned self' [])
      ∧ ∃ ranking,
          ranking ≡ₚ MoonSurvival.OFFICIAL_ITEMS
          ∧ MoonSurvival.individual_rankings (experiment self')
            = {["玩家" := ranking]}
          ∧ MoonSurvival.team_ranking (experiment self') = ranking
          ∧ (Printed <$> single_mode_report ranking) `suffix_of` evs.
Proof.
  split; [reflexivity|]. split; [reflexivity|].
  assert (∃ evs self',
            run_single_mode decimal id new_session
              ["2,1,3,4,5,6,7,8,9,10,11,12,13,14,15"]
            = (evs, Returned self' [])) as (evs & self' & Hrun)
    by (vm_compute; eexists _, _; reflexivity).
  exists evs, self'. split; [exact Hrun|].
  exact (run_single_mode_reports_player_ranking decimal id new_session self'
           _ _ evs eq_refl eq_refl Hrun).
Defined.

(** ** The team mode *)

Lemma new_session_well_formed : well_formed new_session.
Proof.
  split; [done|]. cbn.
  split; [intros person ranking; by rewrite lookup_empty|].
  split; [constructor|]. intros person. rewrite lookup_empty.
  split; [by intros ?%elem_of_nil|by intros [? ?]].
Qed.

Lemma set_ranking_well_formed (self : Session) (person_name : string)
    (ranking : list Item) :
  well_formed self →
  ranking ≡ₚ MoonSurvival.items (experiment self) →
  well_formed (set_ranking self person_name ranking).
Proof.
  intros (Hitems & Hall & Hnd & Hkeys) Hp. rewrite Hitems in Hp.
  split; [done|]. cbn. split; [|split].
  - intros person r [[_ <-]|[_ Hr]]%lookup_insert_Some; [done|].
    by eapply Hall.
  - destruct (decide (person_name ∈ key_order self)) as [Hin|Hnin]; [done|].
    apply NoDup_app. split; [done|]. split; [|apply NoDup_singleton].
    intros x Hx Hx'. apply list_elem_of_singleton in Hx'. by subst x.
  - intros person. rewrite lookup_insert_is_Some.
    destruct (decide (person_name = person)) as [<-|Hne].
    + split; [by left|]. intros _.
      destruct (decide (person_name ∈ key_order self)); [done|].
      apply elem_of_app. right. by apply list_elem_of_singleton.
    + rewrite <- Hkeys. split.
      * intros Hin. right. split; [done|].
        destruct (decide (person_name ∈ key_order self)); [done|].
        apply elem_of_app in Hin as [?|Hin]; [done|].
        apply list_elem_of_singleton in Hin. by subst.
      * intros [?|[_ Hin]]; [done|].
        destruct (decide (person_name ∈ key_order self)); [done|].
        apply elem_of_app. by left.
Qed.

Lemma ask_people_returned (int_of : string → option Z)
    (strip : string → string) (n : nat) (self self' : Session) (i : Z)
    (stdin rest : list string) (evs : list event) :
  well_formed self →
  ask_people int_of strip self i n stdin = (evs, Returned self' rest) →
  well_formed self'
  ∧ (MoonSurvival.individual_rankings (experiment self) ≠ ∅ ∨ n ≠ 0%nat →
     MoonSurvival.individual_rankings (experiment self') ≠ ∅)
  ∧ (n = 0%nat → self' = self)
  ∧ MoonSurvival.team_ranking (experiment self')
    = MoonSurvival.team_ranking (experiment self).
Proof.
  revert self i stdin evs. induction n as [|n IH]; intros self i stdin evs Hwf.
  - cbn. intros [= <- <- <-]. split; [done|]. split; [|by split].
    intros [?|?]; done.
  - cbn [ask_people]. intros Hrun.
    apply bind_returned in Hrun as (e1 & person & in1 & e1' & _ & Hrun & ->).
    apply bind_returned in Hrun as (e2 & self1 & in2 & e2' & Hget & Hrun & ->).
    apply get_individual_ranking_returned in Hget as (ranking & Hp & ->).
    apply IH in Hrun as (Hwf' & Hne & _ & Hteam);
      [|by apply set_ranking_well_formed].
    split; [done|]. split; [|split; [done|by rewrite Hteam]].
    intros _. apply Hne. left. cbn. apply insert_non_empty.
Qed.

Lemma rankings_items_spec (self : Session) :
  well_formed self →
  (rankings_items self).*1 = key_order self
  ∧ (∀ person ranking,
       (person, ranking) ∈ rankings_items self ↔
       MoonSurvival.individual_rankings (experiment self) !! person
       = Some ranking).
Proof.
  intros (_ & _ & _ & Hkeys). unfold rankings_items. split.
  - assert (∀ p, p ∈ key_order self →
              is_Some (MoonSurvival.individual_rankings (experiment self)
                         !! p)) as Hall by (intros p; apply Hkeys).
    revert Hall. generalize (key_order self). intros ko.
    induction ko as [|p ko IH]; intros Hall; [done|].
    cbn. destruct (Hall p ltac:(left)) as [r ->]. cbn. f_equal.
    apply IH. intros q Hq. apply Hall. by right.
  - intros person ranking. rewrite list_elem_of_omap. split.
    + intros (p & _ & Hp).
      destruct (MoonSurvival.individual_rankings (experiment self) !! p)
        as [r|] eqn:E; [|done]. cbn in Hp. by injection Hp as -> ->.
    + intros Hr. exists person. split; [apply Hkeys; by eexists|].
      by rewrite Hr.
Qed.

Lemma accuracy_of_permutation (ranking : list Item) :
  ranking ≡ₚ MoonSurvival.OFFICIAL_ITEMS →
  0 ≤ MoonSurvival.calculate_accuracy ranking ≤ 112.
Proof.
  intros Hp. rewrite accuracy_is_score.
  - split; [apply calculate_score_nonneg|]. apply score_of_permutation_le.
    unfold reference_names. rewrite <- same_table. by rewrite Hp.
  - intros it Hin. rewrite <- same_table. by rewrite <- Hp.
Qed.

(** X18. Started on a well-formed experiment, [run_team_mode], when it
    returns, leaves a well-formed experiment: every ranking stored is a
    permutation of the reference items. What it printed ends with the
    results; these list every person with a ranking once. With at least
    one ranking the team ranking is a permutation of the reference items
    and the team score lies between 0 and 112; with none the team
    ranking is left as it was. *)
Theorem run_team_mode_results (int_of : string → option Z)
    (strip : string → string) (self self' : Session)
    (stdin rest : list string) (evs : list event) :
  well_formed self →
  run_team_mode int_of strip self stdin = (evs, Returned self' rest) →
  well_formed self'
  ∧ (Printed <$> display_results self') `suffix_of` evs
  ∧ NoDup (rankings_items self').*1
  ∧ (∀ person ranking,
       (person, ranking) ∈ rankings_items self' ↔
       MoonSurvival.individual_rankings (experiment self') !! person
       = Some ranking)
  ∧ (MoonSurvival.individual_rankings (experiment self') ≠ ∅ →
     MoonSurvival.team_ranking (experiment self')
     ≡ₚ MoonSurvival.OFFICIAL_ITEMS
     ∧ 0 ≤ MoonSurvival.calculate_accuracy
             (MoonSurvival.team_ranking (experiment self')) ≤ 112)
  ∧ (MoonSurvival.individual_rankings (experiment self') = ∅ →
     MoonSurvival.team_ranking (experiment self')
     = MoonSurvival.team_ranking (experiment self)).
Proof.
  intros Hwf Hrun. unfold run_team_mode in Hrun.
  apply bind_returned in Hrun as (e0 & [] & in0 & e0' & _ & Hrun & ->).
  apply bind_returned in Hrun as (e1 & answer & in1 & e1' & _ & Hrun & ->).
  destruct (int_of answer) as [num_people|]; [|done].
  apply bind_returned in Hrun as (e2 & self1 & in2 & e2' & Hask & Hrun & ->).
  apply bind_returned in Hrun as (e3 & self2 & in3 & e3' & Hteam & Hrun & ->).
  apply bind_returned in Hrun as (e4 & [] & in4 & e4' & Hprint & Hret & ->).
  apply print_all_returned in Hprint as [-> ->]. injection Hret as <- <- _.
  apply ask_people_returned in Hask as (Hwf1 & _ & _ & Hteam1); [|done].
  destruct (calculate_team_ranking_io_returned self1 in2)
    as (self2' & out & Hio & Hcalc & Hkeys).
  rewrite Hio in Hteam. injection Hteam as _ <- _.
  destruct (calculate_team_ranking_total (experiment self1))
    as (e' & out' & Hcalc' & Hitems & Hrank & Hempty & Hnonempty).
  rewrite Hcalc in Hcalc'. injection Hcalc' as <- <-.
  assert (well_formed self2') as Hwf2.
  { destruct Hwf1 as (H1 & H2 & H3 & H4).
    split; [by rewrite Hitems|]. rewrite Hrank, Hkeys.
    split; [exact H2|]. split; [exact H3|exact H4]. }
  destruct (rankings_items_spec self2' Hwf2) as [Hfst Hmem].
  split; [done|]. split.
  { rewrite app_nil_r, !app_assoc. by eexists. }
  split; [rewrite Hfst; by destruct Hwf2 as (_ & _ & ? & _)|].
  split; [done|]. split.
  - rewrite Hrank. intros Hne. destruct (Hnonempty Hne) as [-> _].
    assert ((stable_sort Qle_bool (by_mean_position (experiment self1))).*2
            ≡ₚ MoonSurvival.OFFICIAL_ITEMS) as Hp.
    { rewrite team_ranking_Permutation. destruct Hwf1 as [-> _]. done. }
    split; [done|]. by apply accuracy_of_permutation.
  - rewrite Hrank. intros He. destruct (Hempty He) as [-> _]. done.
Qed.

Lemma run_team_mode_results_witness :
  well_formed new_session
  ∧ ∃ evs self',
      run_team_mode decimal id new_session
        ["2"; "ann"; "15,14,13,12,11,10,9,8,7,6,5,4,3,2,1";
         "bob"; "x"; "1,2,3,4,5,6,7,8,9,10,11,12,13,14,15"]
      = (evs, Returned self' [])
      ∧ well_formed self'
      ∧ (Printed <$> display_results self') `suffix_of` evs
      ∧ NoDup (rankings_items self').*1
      ∧ (∀ person ranking,
           (person, ranking) ∈ rankings_items self' ↔
           MoonSurvival.individual_rankings (experiment self') !! person
           = Some ranking)
      ∧ (MoonSurvival.individual_rankings (experiment self') ≠ ∅ →
         MoonSurvival.team_ranking (experiment self')
         ≡ₚ MoonSurvival.OFFICIAL_ITEMS
         ∧ 0 ≤ MoonSurvival.calculate_accuracy
                 (MoonSurvival.team_ranking (experiment self')) ≤ 112)
      ∧ (MoonSurvival.individual_rankings (experiment self') = ∅ →
         MoonSurvival.team_ranking (experiment self')
         = MoonSurvival.team_ranking (experiment new_session)).
Proof.
  split; [exact new_session_well_formed|].
  assert (∃ evs self',
            run_team_mode decimal id new_session
              ["2"; "ann"; "15,14,13,12,11,10,9,8,7,6,5,4,3,2,1";
               "bob"; "x"; "1,2,3,4,5,6,7,8,9,10,11,12,13,14,15"]
            = (evs, Returned self' [])) as (evs & self' & Hrun)
    by (vm_compute; eexists _, _; reflexivity).
  exists evs, self'. split; [exact Hrun|].
  exact (run_team_mode_results decimal id new_session self' _ _ evs
           new_session_well_formed Hrun).
Defined.

(** X19. Told that nobody, or a negative number of people, takes part,
    [run_team_mode] on an experiment without rankings asks for no
    ranking, reports that there is no data and still prints the results;
    the experiment is left as it was, and with an empty team ranking the
    team score printed is 0, the best possible score. *)
Theorem run_team_mode_with_nobody (int_of : string → option Z)
    (strip : string → string) (self : Session) (answer : string)
    (rest : list string) (num_people : Z) :
  int_of answer = Some num_people → num_people ≤ 0 →
  MoonSurvival.individual_rankings (experiment self) = ∅ →
  run_team_mode int_of strip self (answer :: rest)
  = ((Printed <$> display_items self)
     ++ [Asked "有多少人參與？ "; Printed "❌ 沒有個人排名資料"]
     ++ (Printed <$> display_results self),
     Returned self rest)
  ∧ (MoonSurvival.team_ranking (experiment self) = [] →
     (nl +:+ "團隊總分: 0") ∈ display_results self).
Proof.
  intros Hint Hn Hempty. split.
  - unfold run_team_mode, mbind, io_bind, print_all, input. rewrite Hint.
    replace (Z.to_nat num_people) with 0%nat by lia. cbn [ask_people].
    unfold mret, io_ret, calculate_team_ranking_io,
      MoonSurvival.calculate_team_ranking.
    rewrite decide_True by done.
    unfold mbind, io_bind, print_all, mret, io_ret.
    destruct self as [e ko]. cbn [experiment key_order fmap list_fmap app].
    by rewrite !app_nil_r.
  - intros Hteam. unfold display_results. rewrite Hteam.
    change (MoonSurvival.calculate_accuracy []) with 0.
    rewrite !elem_of_app. do 5 right. left. by left.
Qed.

Lemma run_team_mode_with_nobody_witness :
  decimal "0" = Some 0 ∧ 0 ≤ 0
  ∧ MoonSurvival.individual_rankings (experiment new_session) = ∅
  ∧ run_team_mode decimal id new_session ["0"; "later"]
    = ((Printed <$> display_items new_session)
       ++ [Asked "有多少人參與？ "; Printed "❌ 沒有個人排名資料"]
       ++ (Printed <$> display_results new_session),
       Returned new_session ["later"])
  ∧ (MoonSurvival.team_ranking (experiment new_session) = [] →
     (nl +:+ "團隊總分: 0") ∈ display_results new_session).
Proof.
  assert (decimal "0" = Some 0) as Hint by reflexivity.
  assert (0 ≤ 0) as Hn by lia.
  split; [exact Hint|]. split; [exact Hn|]. split; [reflexivity|].
  exact (run_team_mode_with_nobody decimal id new_session "0" ["later"] 0
           Hint Hn eq_refl).
Defined.

(** ** What can go wrong at the console *)

Lemma ask_people_failed (int_of : string → option Z)
    (strip : string → string) (n : nat) (self : Session) (i : Z)
    (stdin : list string) (evs : list event) (e : console_exn) :
  ask_people int_of strip self i n stdin = (evs, Failed e) → e = EOFError.
Proof.
  revert self i stdin evs. induction n as [|n IH]; intros self i stdin evs.
  - done.
  - cbn [ask_people]. intros Hrun.
    apply bind_failed in Hrun as [Hin|(e1 & p & in1 & e1' & _ & Hrun & ->)].
    { destruct stdin; [|done]. by injection Hin as _ <-. }
    apply bind_failed in Hrun as [Hget|(e2 & s1 & in2 & e2' & _ & Hrun & ->)].
    { by apply get_individual_ranking_failed in Hget. }
    by apply IH in Hrun.
Qed.

Lemma calculate_team_ranking_io_not_failed (self : Session)
    (stdin : list string) (evs : list event) (e : console_exn) :
  calculate_team_ranking_io self stdin ≠ (evs, Failed e).
Proof.
  destruct (calculate_team_ranking_io_returned self stdin)
    as (s' & out & -> & _). done.
Qed.

Lemma run_single_mode_failed (int_of : string → option Z)
    (strip : string → string) (self : Session) (stdin : list string)
    (evs : list event) (e : console_exn) :
  run_single_mode int_of strip self stdin = (evs, Failed e) → e = EOFError.
Proof.
  unfold run_single_mode. intros Hrun.
  apply bind_failed in Hrun as [?|(e0 & [] & in0 & e0' & _ & Hrun & ->)];
    [done|].
  apply bind_failed in Hrun as [Hget|(e1 & s1 & in1 & e1' & Hget & Hrun & ->)].
  { by apply get_individual_ranking_failed in Hget. }
  apply bind_failed in Hrun as [Hc|(e2 & s2 & in2 & e2' & Hc & Hrun & ->)].
  { by apply calculate_team_ranking_io_not_failed in Hc. }
  apply bind_failed in Hrun as [?|(e3 & [] & in3 & e3' & _ & Hrun & ->)];
    [done|].
  apply bind_failed in Hrun as [?|(e4 & [] & in4 & e4' & _ & Hrun & ->)];
    [done|].
  apply bind_failed in Hrun as [?|(e5 & [] & in5 & e5' & _ & Hrun & ->)];
    [done|].
  apply get_individual_ranking_returned in Hget as (ranking & _ & ->).
  destruct (calculate_team_ranking_io_returned
              (set_ranking self "玩家" ranking) in1)
    as (s2' & out & Hio & Hcalc & _).
  rewrite Hio in Hc. injection Hc as _ <- _.
  destruct (calculate_team_ranking_total
              (experiment (set_ranking self "玩家" ranking)))
    as (e' & out' & Hcalc' & _ & Hrank & _).
  rewrite Hcalc in Hcalc'. injection Hcalc' as <- <-.
  rewrite Hrank in Hrun. cbn [experiment set_ranking
    MoonSurvival.individual_rankings] in Hrun.
  rewrite lookup_insert_eq in Hrun.
  apply bind_failed in Hrun as [?|(e6 & [] & in6 & e6' & _ & ? & ->)]; done.
Qed.

Lemma run_team_mode_failed (int_of : string → option Z)
    (strip : string → string) (self : Session) (stdin : list string)
    (evs : list event) (e : console_exn) :
  run_team_mode int_of strip self stdin = (evs, Failed e) →
  e = EOFError
  ∨ (e = ValueError
     ∧ ∃ answer rest, stdin = answer :: rest ∧ int_of answer = None).
Proof.
  unfold run_team_mode. intros Hrun.
  apply bind_failed in Hrun as [?|(e0 & [] & in0 & e0' & H0 & Hrun & ->)];
    [done|].
  apply print_all_returned in H0 as [_ ->].
  apply bind_failed in Hrun as [Hin|(e1 & a & in1 & e1' & Hin & Hrun & ->)].
  { left. destruct stdin; [|done]. by injection Hin as _ <-. }
  destruct stdin as [|answer rest]; [done|]. injection Hin as _ <- <-.
  destruct (int_of answer) as [num_people|] eqn:Hint.
  - left.
    apply bind_failed in Hrun as [Ha|(e2 & s1 & in2 & e2' & _ & Hrun & ->)].
    { by apply ask_people_failed in Ha. }
    apply bind_failed in Hrun as [Hc|(e3 & s2 & in3 & e3' & _ & Hrun & ->)].
    { by apply calculate_team_ranking_io_not_failed in Hc. }
    apply bind_failed in Hrun as [?|(e4 & [] & in4 & e4' & _ & ? & ->)]; done.
  - right. injection Hrun as _ <-. split; [done|]. by exists answer, rest.
Qed.

(** X20. The program ends in an exception in two cases only: the input
    ends while a line is awaited ([EOFError]), or team mode was chosen
    and the number of people is no numeral for [int] ([ValueError]). No
    index, key or division error can come up. *)
Theorem main_failures (int_of : string → option Z)
    (strip : string → string) (stdin : list string) (evs : list event)
    (e : console_exn) :
  main int_of strip stdin = (evs, Failed e) →
  e = EOFError
  ∨ (e = ValueError
     ∧ ∃ choice answer rest,
         stdin = choice :: answer :: rest
         ∧ strip choice = "2" ∧ int_of answer = None).
Proof.
  unfold main. intros Hrun.
  apply bind_failed in Hrun as [?|(e0 & [] & in0 & e0' & H0 & Hrun & ->)];
    [done|]. apply print_returned in H0 as [_ ->].
  apply bind_failed in Hrun as [?|(e1 & [] & in1 & e1' & H1 & Hrun & ->)];
    [done|]. apply print_returned in H1 as [_ ->].
  apply bind_failed in Hrun as [?|(e2 & [] & in2 & e2' & H2 & Hrun & ->)];
    [done|]. apply print_returned in H2 as [_ ->].
  apply bind_failed in Hrun as [?|(e3 & [] & in3 & e3' & H3 & Hrun & ->)];
    [done|]. apply print_returned in H3 as [_ ->].
  apply bind_failed in Hrun as [Hin|(e4 & a & in4 & e4' & Hin & Hrun & ->)].
  { left. destruct stdin; [|done]. by injection Hin as _ <-. }
  destruct stdin as [|choice rest]; [done|]. injection Hin as _ <- <-.
  cbv zeta in Hrun.
  destruct (decide (strip choice = "1")) as [Hone|Hnone].
  - left.
    apply bind_failed in Hrun as [Hs|(e5 & s & in5 & e5' & _ & ? & ->)];
      [|done]. by apply run_single_mode_failed in Hs.
  - destruct (decide (strip choice = "2")) as [Hchoice|Hother].
    + apply bind_failed in Hrun as [Ht|(e5 & s & in5 & e5' & _ & ? & ->)];
        [|done].
      apply run_team_mode_failed in Ht
        as [->|(-> & answer & rest' & -> & Hint)]; [by left|].
      right. split; [done|]. by exists choice, answer, rest'.
    + apply bind_failed in Hrun as [?|(e5 & [] & in5 & e5' & _ & ? & ->)];
        done.
Qed.

Lemma main_failures_witness :
  main decimal id ["2"; "many"] = ([
    Printed ("🌙 月球倖存實驗 🌙" +:+ nl);
    Printed "選擇遊戲模式:";
    Printed "1. 單人模式";
    Printed ("2. 團隊模式" +:+ nl);
    Asked "請選擇 (1 或 2): " ]
    ++ (Printed <$> display_items new_session)
    ++ [ Asked "有多少人參與？ " ], Failed ValueError)
  ∧ (ValueError = EOFError
     ∨ (ValueError = ValueError
        ∧ ∃ choice answer rest,
            ["2"; "many"] = choice :: answer :: rest
            ∧ id choice = "2" ∧ decimal answer = None)).
Proof.
  assert (main decimal id ["2"; "many"] = ([
    Printed ("🌙 月球倖存實驗 🌙" +:+ nl);
    Printed "選擇遊戲模式:";
    Printed "1. 單人模式";
    Printed ("2. 團隊模式" +:+ nl);
    Asked "請選擇 (1 或 2): " ]
    ++ (Printed <$> display_items new_session)
    ++ [ Asked "有多少人參與？ " ], Failed ValueError)) as Hrun
    by (vm_compute; reflexivity).
  split; [exact Hrun|].
  exact (main_failures decimal id ["2"; "many"] _ ValueError Hrun).
Defined.

(** * The local replies of [app.py] *)

(** X21. Whatever the message and the clock, [local_chat_response]
    answers, with one of its three fixed hints or one of its three tips;
    no index error can come up, before 1970 either; and the answer
    depends on the clock only through its remainder by 3. *)
Theorem local_chat_response_answers (lower : string → string) (now : Z)
    (message : string) :
  (∃ reply, local_chat_response lower now message = Some reply
            ∧ reply ∈ [oxygen_reply; water_reply; rank_reply] ++ tips)
  ∧ local_chat_response lower (now + 3) message
    = local_chat_response lower now message.
Proof.
  unfold local_chat_response. split.
  - assert (∀ reply, bool_decide
              (reply ∈ [oxygen_reply; water_reply; rank_reply] ++ tips)
              = true →
            ∃ r, Some reply = Some r
                 ∧ r ∈ [oxygen_reply; water_reply; rank_reply] ++ tips)
      as Hfound.
    { intros reply Hin. exists reply. split; [done|].
      by apply bool_decide_eq_true in Hin. }
    destruct (_ || _); [by apply Hfound|].
    destruct (_ || _); [by apply Hfound|].
    destruct (_ || _); [by apply Hfound|].
    change (len tips) with 3.
    pose proof (Z.mod_pos_bound now 3 ltac:(lia)) as Hm.
    unfold list_getitem. rewrite decide_True by lia.
    destruct (Z.to_nat (now `mod` 3)) as [|[|[|k]]] eqn:E; [..|lia];
      by apply Hfound.
  - do 3 (destruct (_ || _); [done|]). change (len tips) with 3.
    f_equal. rewrite <- (Z.mul_1_l 3) at 1. by rewrite Z.mod_add.
Qed.
